(** * The disaster-response ETL pipeline ([data/process_data.py])

    A shallow embedding of [load_data], [clean_data], [save_data] and [main],
    together with the part of pandas / SQLAlchemy behaviour those four
    functions rely on, and the properties of the pipeline proved over it. *)

From Stdlib Require Import ZArith List Bool Ascii String Lia.
From stdpp Require Import gmap strings.
Import ListNotations.
Local Open Scope Z_scope.

(* ===================================================================== *)
(** * Values, exceptions and the error monad                              *)
(* ===================================================================== *)

(** A cell of a data frame: a missing value (NaN / None), an integer, or a
    Python string (a [string] of bytes here). *)
Inductive cell : Type :=
| Null
| Int (n : Z)
| Str (s : string).

Definition cell_eqb (a b : cell) : bool :=
  match a, b with
  | Null, Null => true
  | Int x, Int y => Z.eqb x y
  | Str s, Str t => String.eqb s t
  | _, _ => false
  end.

Fixpoint cells_eqb (a b : list cell) : bool :=
  match a, b with
  | [], [] => true
  | x :: a', y :: b' => cell_eqb x y && cells_eqb a' b'
  | _, _ => false
  end.

(** The Python exception classes that the pipeline can surface. *)
Inductive exn : Type :=
| IndexError
| KeyError
| AttributeError
| TypeError
| ValueError
| FileNotFoundError
| EmptyDataError
| ParserError
| DatabaseError.

Inductive result (A : Type) : Type :=
| OK (a : A)
| Raise (e : exn).
Arguments OK {A} a.
Arguments Raise {A} e.

Definition rbind {A B : Type} (r : result A) (k : A -> result B) : result B :=
  match r with
  | OK a => k a
  | Raise e => Raise e
  end.

#[global] Instance result_bind : MBind result := fun A B k r => rbind r k.
#[global] Instance result_ret : MRet result := fun A a => OK a.

(** [traverse f l]: apply [f] to the elements from left to right, stopping at
    the first exception (what [Series.apply] does with a raising lambda). *)
Fixpoint traverse {A B : Type} (f : A -> result B) (l : list A) : result (list B) :=
  match l with
  | [] => OK []
  | x :: l' =>
      match f x with
      | Raise e => Raise e
      | OK y =>
          match traverse f l' with
          | Raise e => Raise e
          | OK ys => OK (y :: ys)
          end
      end
  end.

(** [foldM f l a]: a [for] loop over [l] threading [a], aborted by the first
    exception. *)
Fixpoint foldM {A B : Type} (f : B -> A -> result B) (l : list A) (b : B) : result B :=
  match l with
  | [] => OK b
  | x :: l' =>
      match f b x with
      | Raise e => Raise e
      | OK b' => foldM f l' b'
      end
  end.

(* ===================================================================== *)
(** * Python string operations used by the Cleaner                        *)
(* ===================================================================== *)

Module PyStr.

(** [s.split(sep)] for a one-character separator: never empty, and
    [''.split(sep) = ['']]. *)
Fixpoint split (sep : ascii) (s : string) : list string :=
  match s with
  | EmptyString => [EmptyString]
  | String c s' =>
      if Ascii.eqb c sep then EmptyString :: split sep s'
      else match split sep s' with
           | h :: t => String c h :: t
           | [] => [String c EmptyString]
           end
  end.

(** [x[-1]]: the last character, [IndexError] on the empty string. *)
Fixpoint last_char (s : string) : option ascii :=
  match s with
  | EmptyString => None
  | String c EmptyString => Some c
  | String _ s' => last_char s'
  end.

(** [s.join(parts)] with a one-character [s]. *)
Fixpoint join (sep : ascii) (parts : list string) : string :=
  match parts with
  | [] => EmptyString
  | [p] => p
  | p :: ps => p +:+ String sep (join sep ps)
  end.

(** Everything but the last element of a list ([parts[:-1]]). *)
Definition but_last {A : Type} (l : list A) : list A := removelast l.

Definition is_digit (c : ascii) : bool :=
  (48 <=? nat_of_ascii c)%nat && (nat_of_ascii c <=? 57)%nat.

Definition digit_value (c : ascii) : Z := Z.of_nat (nat_of_ascii c) - 48.

End PyStr.

(* ===================================================================== *)
(** * Data frames                                                          *)
(* ===================================================================== *)

(** A pandas [DataFrame]: the name of its index, its column labels (which
    pandas allows to repeat) and its rows in order, each row being its index
    label and its cells, one per column. *)
Record DataFrame : Type := mkDataFrame {
  index_name : option string;
  columns : list string;
  rows : list (cell * list cell)
}.

(** Every row has one cell per column. *)
Definition wf_frame (df : DataFrame) : Prop :=
  Forall (fun r => length (snd r) = length (columns df)) (rows df).

Module Pandas.

(** Positions of the columns labelled [name]. *)
Fixpoint positions_from (i : nat) (name : string) (cols : list string) : list nat :=
  match cols with
  | [] => []
  | c :: cols' =>
      if String.eqb c name then i :: positions_from (S i) name cols'
      else positions_from (S i) name cols'
  end.

Definition positions (name : string) (cols : list string) : list nat :=
  positions_from 0 name cols.

(** The values of the column at position [p], in row order. *)
Definition column_at (p : nat) (rs : list (cell * list cell)) : list cell :=
  map (fun r => nth p (snd r) Null) rs.

(** What [df[name]] evaluates to: a [Series] when exactly one column carries
    the label, a sub-frame when several do; [KeyError] when none does. *)
Inductive selection : Type :=
| Series (p : nat) (values : list cell)
| SubFrame (ps : list nat).

Definition getitem (df : DataFrame) (name : string) : result selection :=
  match positions name (columns df) with
  | [] => Raise KeyError
  | [p] => OK (Series p (column_at p (rows df)))
  | ps => OK (SubFrame ps)
  end.

(** [Series.str.split(sep, expand=True)], a matrix of cells with one row per
    element: a string is split into its tokens, any other element becomes a
    row of missing values; every row is padded with missing values up to the
    longest one. *)
Definition split_cell (sep : ascii) (c : cell) : list cell :=
  match c with
  | Str s => map Str (PyStr.split sep s)
  | _ => [Null]
  end.

Definition max_len (m : list (list cell)) : nat :=
  fold_right (fun r acc => Nat.max (length r) acc) 0%nat m.

Definition pad (w : nat) (r : list cell) : list cell :=
  r ++ repeat Null (w - length r).

Definition str_split_expand (sep : ascii) (values : list cell) : list (list cell) :=
  let parts := map (split_cell sep) values in
  map (pad (max_len parts)) parts.

(** [l[0]] on a sequence and [m.iloc[0, ]] on a frame: the first element or
    row, [IndexError] when there is none. *)
Definition first_item {A : Type} (l : list A) : result A :=
  match l with
  | [] => Raise IndexError
  | x :: _ => OK x
  end.

Definition iloc0 (m : list (list cell)) : result (list cell) := first_item m.

(** Replace the cell at position [p] of every row by the corresponding new
    value (assignment to a uniquely labelled column). *)
Fixpoint set_nth (p : nat) (v : cell) (r : list cell) : list cell :=
  match p, r with
  | _, [] => []
  | O, _ :: r' => v :: r'
  | S p', x :: r' => x :: set_nth p' v r'
  end.

Fixpoint set_column (p : nat) (vals : list cell) (rs : list (cell * list cell))
  : list (cell * list cell) :=
  match rs, vals with
  | r :: rs', v :: vals' => (fst r, set_nth p v (snd r)) :: set_column p vals' rs'
  | _, _ => rs
  end.

(** [pd.to_numeric] on one element.  The Cleaner only calls it on the
    one-character strings left by [x[-1]]; such a string parses exactly when
    its character is a decimal digit (other elements are not met here). *)
Definition to_numeric1 (c : cell) : result cell :=
  match c with
  | Str (String d EmptyString) =>
      if PyStr.is_digit d then OK (Int (PyStr.digit_value d)) else Raise ValueError
  | _ => Raise ValueError
  end.

Definition to_numeric (values : list cell) : result (list cell) :=
  traverse to_numeric1 values.

(** [pd.concat([a, b], axis=1)] for two frames over the same index: the
    columns of [b] are appended to those of [a], row by row. *)
Fixpoint zip_rows (a b : list (cell * list cell)) : list (cell * list cell) :=
  match a, b with
  | ra :: a', rb :: b' => (fst ra, snd ra ++ snd rb) :: zip_rows a' b'
  | _, _ => []
  end.

Definition concat_axis1 (a b : DataFrame) : DataFrame :=
  {| index_name := index_name a;
     columns := columns a ++ columns b;
     rows := zip_rows (rows a) (rows b) |}.

(** Keep the elements of [r] whose position is marked [true] in [mask]. *)
Fixpoint keep_mask {A : Type} (mask : list bool) (r : list A) : list A :=
  match mask, r with
  | b :: mask', x :: r' => if b then x :: keep_mask mask' r' else keep_mask mask' r'
  | _, _ => []
  end.

(** The mask that removes the columns labelled [label]. *)
Definition keeps (label : string) (c : string) : bool := negb (String.eqb c label).

(** [df.drop(label, axis=1)]: [KeyError] when no column carries the label,
    otherwise every column that carries it is removed. *)
Definition drop (label : string) (df : DataFrame) : result DataFrame :=
  match positions label (columns df) with
  | [] => Raise KeyError
  | _ =>
      let mask := map (keeps label) (columns df) in
      OK {| index_name := index_name df;
            columns := keep_mask mask (columns df);
            rows := map (fun r => (fst r, keep_mask mask (snd r))) (rows df) |}
  end.

(** [df[df[label] != k]]: the rows whose value in the (single) column
    [label] differs from the integer [k].  With several columns of that
    label the comparison yields a frame, and indexing by a frame whose
    labels repeat is refused. *)
Definition filter_ne (label : string) (k : Z) (df : DataFrame) : result DataFrame :=
  sel ← getitem df label;
  match sel with
  | Series p _ =>
      OK {| index_name := index_name df;
            columns := columns df;
            rows := List.filter (fun r => negb (cell_eqb (nth p (snd r) Null) (Int k)))
                      (rows df) |}
  | SubFrame _ => Raise ValueError
  end.

(** [df.drop_duplicates()]: a row is dropped when an earlier row has the same
    cells in every column (index labels are not compared; missing values
    compare equal). *)
Fixpoint drop_dups (seen : list (list cell)) (rs : list (cell * list cell))
  : list (cell * list cell) :=
  match rs with
  | [] => []
  | r :: rs' =>
      if existsb (cells_eqb (snd r)) seen then drop_dups seen rs'
      else r :: drop_dups (snd r :: seen) rs'
  end.

Definition drop_duplicates (df : DataFrame) : DataFrame :=
  {| index_name := index_name df;
     columns := columns df;
     rows := drop_dups [] (rows df) |}.

End Pandas.

(* ===================================================================== *)
(** * The Cleaner: [clean_data]                                           *)
(* ===================================================================== *)

Import Pandas.

Definition semicolon : ascii := ";"%char.
Definition dash : ascii := "-"%char.

(** [lambda x: x.split('-')[0]] *)
Definition name_of_token (x : cell) : result string :=
  match x with
  | Str s => first_item (PyStr.split dash s)
  | _ => Raise AttributeError
  end.

(** [lambda x: x[-1]] *)
Definition last_of (x : cell) : result cell :=
  match x with
  | Str s =>
      match PyStr.last_char s with
      | Some c => OK (Str (String c EmptyString))
      | None => Raise IndexError
      end
  | _ => Raise TypeError
  end.

(** [categories[column] = f(categories[column])].  When [column] labels
    several columns the right-hand side is a frame; [apply] then hands whole
    columns to the lambda, whose [x[-1]] is a failing label lookup. *)
Definition assign_column (f : list cell -> result (list cell))
    (categories : DataFrame) (column : string) : result DataFrame :=
  sel ← getitem categories column;
  match sel with
  | Series p values =>
      values' ← f values;
      OK {| index_name := index_name categories;
            columns := columns categories;
            rows := set_column p values' (rows categories) |}
  | SubFrame _ => Raise KeyError
  end.

(** The body of [for column in categories]. *)
Definition convert_column (categories : DataFrame) (column : string) : result DataFrame :=
  categories ← assign_column (traverse last_of) categories column;
  assign_column to_numeric categories column.

(** Line 42: [df['categories'].str.split(';', expand=True)]; a sub-frame
    has no [str] accessor. *)
Definition split_categories (df : DataFrame) : result (list (list cell)) :=
  sel ← getitem df "categories";
  match sel with
  | Series _ values => OK (str_split_expand semicolon values)
  | SubFrame _ => Raise AttributeError
  end.

(** Lines 45 and 46: the names taken from the first row of the token
    matrix. *)
Definition colnames_of (categories : list (list cell)) : result (list string) :=
  row ← iloc0 categories;
  traverse name_of_token row.

(** [category_colnames] as a function of the merged record set. *)
Definition category_colnames (df : DataFrame) : result (list string) :=
  categories ← split_categories df;
  colnames_of categories.

(** Lines 42 to 52: the numeric [categories] frame, which has the index of
    [df], the derived names as column labels, and every column converted in
    turn by the loop. *)
Definition decode_categories (df : DataFrame) : result DataFrame :=
  categories ← split_categories df;
  category_colnames ← colnames_of categories;
  let categories :=
    {| index_name := index_name df;
       columns := category_colnames;
       rows := combine (map fst (rows df)) categories |} in
  foldM convert_column (columns categories) categories.

Definition clean_data (df : DataFrame) : result DataFrame :=
  (* lines 42 to 52 *)
  categories ← decode_categories df;
  (* df = pd.concat([df, categories], axis = 1) *)
  let df := concat_axis1 df categories in
  (* df.drop('categories', axis = 1, inplace = True) *)
  df ← drop "categories" df;
  (* df.drop('child_alone', axis = 1, inplace = True) *)
  df ← drop "child_alone" df;
  (* df = df[df['related'] != 2] *)
  df ← filter_ne "related" 2 df;
  (* df.drop_duplicates(inplace=True) *)
  OK (drop_duplicates df).


(** ** Notions used to state the Cleaner's properties *)

(** What the loop body does to one cell: [x[-1]], then [pd.to_numeric]. *)
Definition decode_cell (x : cell) : result cell :=
  v ← last_of x; to_numeric1 v.

(** [v] is the last character of the token [tok], read as a decimal digit. *)
Definition decoded_token (tok : string) (v : cell) : Prop :=
  exists d : ascii,
    PyStr.last_char tok = Some d /\ PyStr.is_digit d = true /\ v = Int (PyStr.digit_value d).

(** The name portion of a [name-value] token as the specification words it:
    the text before the last [-]-delimited segment ([x.rsplit('-', 1)[0]]). *)
Definition name_before_last_dash (tok : string) : string :=
  match PyStr.split dash tok with
  | [] | [_] => tok
  | parts => PyStr.join dash (PyStr.but_last parts)
  end.

(** The name the code takes: the text before the first [-]. *)
Definition name_before_first_dash (tok : string) : string :=
  match PyStr.split dash tok with
  | [] => tok
  | first :: _ => first
  end.

(** The value that a row holds in the column labelled [label], when exactly
    one column carries that label. *)
Definition value_of (label : string) (df : DataFrame) (r : cell * list cell)
  : option cell :=
  match positions label (columns df) with
  | [p] => nth_error (snd r) p
  | _ => None
  end.

(** Some row has no [categories] string (a missing value after the join). *)
Definition has_null_categories (df : DataFrame) : Prop :=
  exists p r, positions "categories" (columns df) = [p] /\
              In r (rows df) /\ nth p (snd r) Null = Null.

(** Number of occurrences of a character in a string. *)
Fixpoint count_char (c : ascii) (s : string) : nat :=
  match s with
  | EmptyString => 0%nat
  | String x s' => ((if Ascii.eqb x c then 1 else 0) + count_char c s')%nat
  end.

(** The columns that survive both [drop] calls. *)
Definition kept (c : string) : bool :=
  keeps "categories" c && keeps "child_alone" c.

(* ===================================================================== *)
(** * Column types                                                        *)
(* ===================================================================== *)

(** pandas stores a column under one type, and both [read_csv] and [merge]
    act on it.  The type is read off the cells here: a column that holds text
    is an [object] column, a numeric column with a missing value is a
    [float64] column, and a column of integers is [int64], or [uint64] when
    an integer does not fit 64 signed bits. *)
Module Dtype.

Inductive dtype : Type := Int64 | UInt64 | Float64 | Object.

Definition is_str (c : cell) : bool :=
  match c with Str _ => true | _ => false end.

Definition is_null (c : cell) : bool :=
  match c with Null => true | _ => false end.

Definition fits_int64 (c : cell) : bool :=
  match c with
  | Int z => (- 2 ^ 63 <=? z) && (z <? 2 ^ 63)
  | _ => true
  end.

Definition fits_uint64 (c : cell) : bool :=
  match c with
  | Int z => (0 <=? z) && (z <? 2 ^ 64)
  | _ => false
  end.

Definition dtype_of (col : list cell) : dtype :=
  if existsb is_str col then Object
  else if existsb is_null col then Float64
  else match col with
       | [] => Object
       | _ => if forallb fits_int64 col then Int64 else UInt64
       end.

(** The integer nearest to [z] among those a 64-bit float represents
    (53 significant bits, ties to the even one): what a cast of an integer
    to [float64] yields.  Magnitudes beyond the range of a float do not
    occur among 64-bit integers. *)
Definition round_f64 (z : Z) : Z :=
  let a := Z.abs z in
  let e := Z.log2 a - 52 in
  if e <=? 0 then z
  else
    let q := Z.shiftr a e in
    let r := Z.land a (Z.ones e) in
    let half := Z.shiftl 1 (e - 1) in
    let q' := if r <? half then q
              else if half <? r then q + 1
              else if Z.even q then q else q + 1 in
    Z.sgn z * Z.shiftl q' e.

Definition as_float (c : cell) : cell :=
  match c with
  | Int z => Int (round_f64 z)
  | _ => c
  end.

(** [str(n)]: the decimal numeral of an integer. *)
Fixpoint decimal_digits (fuel : nat) (n : N) (acc : string) : string :=
  match fuel with
  | O => acc
  | S fuel' =>
      let acc' := String (ascii_of_N (48 + n mod 10)%N) acc in
      if (n / 10 =? 0)%N then acc' else decimal_digits fuel' (n / 10) acc'
  end.

Definition decimal (z : Z) : string :=
  let n := Z.to_N (Z.abs z) in
  let digits := decimal_digits (S (N.to_nat (N.log2 n))) n EmptyString in
  if z <? 0 then String "-"%char digits else digits.

Definition as_text (c : cell) : cell :=
  match c with
  | Int z => Str (decimal z)
  | _ => c
  end.

(** A key that a cast to [float64] leaves as it is: an integer of magnitude
    at most 2^53; text and missing values are never rounded. *)
Definition exact (c : cell) : bool :=
  match c with
  | Int z => Z.abs z <=? 2 ^ 53
  | _ => true
  end.

End Dtype.

(* ===================================================================== *)
(** * The Loader: [load_data]                                             *)
(* ===================================================================== *)

Module Merge.

(** Where [on=[name]] finds its key in a frame: a column label or the name
    of the index.  A name that is both, or that labels several columns, is
    refused as ambiguous. *)
Inductive key_ref : Type :=
| KeyColumn (p : nat)
| KeyIndex.

Definition is_level (name : string) (df : DataFrame) : bool :=
  match index_name df with
  | Some n => String.eqb n name
  | None => false
  end.

Definition resolve_key (name : string) (df : DataFrame) : result key_ref :=
  match positions name (columns df), is_level name df with
  | [], true => OK KeyIndex
  | [], false => Raise KeyError
  | [p], false => OK (KeyColumn p)
  | _, _ => Raise ValueError
  end.

Definition key_of (k : key_ref) (r : cell * list cell) : cell :=
  match k with
  | KeyColumn p => nth p (snd r) Null
  | KeyIndex => fst r
  end.

Definition remove_at {A : Type} (p : nat) (l : list A) : list A :=
  firstn p l ++ skipn (S p) l.

(** The right frame without its key (the key column, or the index level). *)
Definition without_key {A : Type} (k : key_ref) (l : list A) : list A :=
  match k with
  | KeyColumn p => remove_at p l
  | KeyIndex => l
  end.

(** Labels carried by both sides get the suffixes [_x] and [_y]. *)
Definition with_suffix (sfx : string) (others : list string) (cols : list string)
  : list string :=
  map (fun c => if existsb (String.eqb c) others then c +:+ sfx else c) cols.

(** How the keys of the two frames are compared.  Keys of the same type are
    compared as they are (two missing values are equal); two numeric key
    columns of different types are both cast to [float64] first, and so are
    two [float64] columns, which hold floats already. *)
Definition coerces (dl dr : Dtype.dtype) : bool :=
  match dl, dr with
  | Dtype.Object, _ | _, Dtype.Object => false
  | Dtype.Int64, Dtype.Int64 | Dtype.UInt64, Dtype.UInt64 => false
  | _, _ => true
  end.

Definition same_key (coerce : bool) (a b : cell) : bool :=
  if coerce then cell_eqb (Dtype.as_float a) (Dtype.as_float b) else cell_eqb a b.

(** A numeric key column is not merged with a column of text
    ([ValueError]), unless one of the two has no rows. *)
Definition numeric (d : Dtype.dtype) : bool :=
  match d with Dtype.Object => false | _ => true end.

Definition mergeable (lkeys rkeys : list cell) : bool :=
  match lkeys, rkeys with
  | [], _ | _, [] => true
  | _, _ => Bool.eqb (numeric (Dtype.dtype_of lkeys)) (numeric (Dtype.dtype_of rkeys))
  end.

(** The rows of a left join: the left rows in order, each once per right row
    with the same key (in the order of the right frame), or once with
    missing values on the right when no key is the same.  Each result is
    paired with the key of its left row. *)
Definition join_rows (coerce : bool) (kl kr : key_ref) (nright : nat)
    (left right : list (cell * list cell)) : list (cell * list cell) :=
  flat_map (fun l =>
    let k := key_of kl l in
    match List.filter (fun r => same_key coerce (key_of kr r) k) right with
    | [] => [(k, snd l ++ repeat Null nright)]
    | matches => map (fun r => (k, snd l ++ without_key kr (snd r))) matches
    end) left.

(** A fresh [RangeIndex]. *)
Fixpoint range_index (i : Z) (rs : list (list cell)) : list (cell * list cell) :=
  match rs with
  | [] => []
  | r :: rs' => (Int i, r) :: range_index (i + 1) rs'
  end.

(** [left.merge(right, how='left', on=[name])].  The key is kept where the
    left frame has it, except that a key found in the index on the left and
    in a column on the right becomes the first column; the result is indexed
    by the key only when both frames are. *)
Definition merge_left (name : string) (left right : DataFrame) : result DataFrame :=
  kl ← resolve_key name left;
  kr ← resolve_key name right;
  let lkeys := map (key_of kl) (rows left) in
  let rkeys := map (key_of kr) (rows right) in
  if negb (mergeable lkeys rkeys) then Raise ValueError
  else
  let coerce := coerces (Dtype.dtype_of lkeys) (Dtype.dtype_of rkeys) in
  let rcols := without_key kr (columns right) in
  let lcols' := with_suffix "_x" rcols (columns left) in
  let rcols' := with_suffix "_y" (columns left) rcols in
  let joined := join_rows coerce kl kr (length rcols) (rows left) (rows right) in
  match kl, kr with
  | KeyIndex, KeyIndex =>
      OK {| index_name := Some name; columns := lcols' ++ rcols'; rows := joined |}
  | KeyIndex, KeyColumn _ =>
      OK {| index_name := None; columns := name :: lcols' ++ rcols';
            rows := range_index 0 (map (fun r => fst r :: snd r) joined) |}
  | KeyColumn _, _ =>
      OK {| index_name := None; columns := lcols' ++ rcols';
            rows := range_index 0 (map snd joined) |}
  end.

(** The key of a row of a frame, and the keys of all its rows in order. *)
Definition id_of (name : string) (df : DataFrame) (r : cell * list cell) : cell :=
  match resolve_key name df with
  | OK k => key_of k r
  | Raise _ => Null
  end.

Definition ids (name : string) (df : DataFrame) : list cell :=
  map (id_of name df) (rows df).

(** How many times a value occurs in a list of cells. *)
Definition occurrences (i : cell) (l : list cell) : nat :=
  length (List.filter (cell_eqb i) l).

(** The number of columns that the right frame of a merge contributes. *)
Definition right_width (name : string) (right : DataFrame) : nat :=
  match resolve_key name right with
  | OK k => length (without_key k (columns right))
  | Raise _ => 0
  end.

End Merge.

(* ===================================================================== *)
(** * Files, the SQLite store and the process                             *)
(* ===================================================================== *)

(** A table of the relational store: its columns and its records. *)
Record SqlTable : Type := mkSqlTable {
  sql_columns : list string;
  sql_rows : list (list cell)
}.

(** What a path of the file system holds: a delimited text file (already
    tokenised into the fields of its header line and of its records: a field
    that [read_csv] takes as missing, such as a blank one, is [Null], a
    field that is the decimal numeral of an integer is that [Int], any
    other field is its text; fractional numbers are left as text), an SQLite
    database (its tables in creation order; a file of no bytes is the
    database without tables), or anything else. *)
Inductive File : Type :=
| CsvFile (header : list string) (records : list (list cell))
| SqliteFile (tables : list (string * SqlTable))
| OtherFile.

Inductive Stage : Type := Loader | Cleaner | Persister.

(** What the process does, in order. *)
Inductive Event : Type :=
| Stdout (text : string)
| FileRead (path : string)
| FileWrite (path : string)
| Invoke (s : Stage).

Record World : Type := mkWorld {
  fs : gmap string File;
  log : list Event
}.

Definition emit (e : Event) (w : World) : World :=
  {| fs := fs w; log := log w ++ [e] |}.

(** A computation that may raise and acts on the world; the effects made
    before an exception stay. *)
Definition IO (A : Type) : Type := World -> result A * World.

Definition io_bind {A B : Type} (c : IO A) (k : A -> IO B) : IO B :=
  fun w =>
    match c w with
    | (OK a, w') => k a w'
    | (Raise e, w') => (Raise e, w')
    end.

#[global] Instance IO_bind : MBind IO := fun A B k c => io_bind c k.
#[global] Instance IO_ret : MRet IO := fun A a w => (OK a, w).

Definition lift {A : Type} (r : result A) : IO A := fun w => (r, w).
Definition print (text : string) : IO unit := fun w => (OK tt, emit (Stdout text) w).
Definition invoke (s : Stage) : IO unit := fun w => (OK tt, emit (Invoke s) w).

(** ** Reading a delimited file *)
Module Csv.

(** The labels made of a header line.  An empty field is called
    [Unnamed: i] after its position.  A label met before gets the suffix
    [.1], [.2], ...: the first one that makes a label not in the header.
    The named fields are treated first, then the unnamed ones. *)
Definition count_of (counts : list (string * nat)) (name : string) : nat :=
  match List.find (fun kv => String.eqb (fst kv) name) counts with
  | Some kv => snd kv
  | None => 0%nat
  end.

Fixpoint name_fields (i : nat) (header : list string) : list string :=
  match header with
  | [] => []
  | h :: header' =>
      (if String.eqb h EmptyString then "Unnamed: " +:+ Dtype.decimal (Z.of_nat i) else h)
      :: name_fields (S i) header'
  end.

(** The [while cur_count > 0] loop that looks for a free label. *)
Fixpoint rename (fuel : nat) (hdr : list string) (old col : string) (cur : nat)
    (counts : list (string * nat)) : string * nat * list (string * nat) :=
  match cur, fuel with
  | S _, S fuel' =>
      let counts' := (old, S cur) :: counts in
      let col' := old +:+ "." +:+ Dtype.decimal (Z.of_nat cur) in
      if existsb (String.eqb col') hdr then rename fuel' hdr old col' (S cur) counts'
      else rename fuel' hdr old col' (count_of counts' col') counts'
  | _, _ => (col, cur, counts)
  end.

Definition mangle_at (st : list string * list (string * nat)) (i : nat)
  : list string * list (string * nat) :=
  let hdr := fst st in
  let old := nth i hdr EmptyString in
  match rename (2 * length hdr + 2) hdr old old (count_of (snd st) old) (snd st) with
  | (col, cur, counts) => (<[i := col]> hdr, (col, S cur) :: counts)
  end.

Definition labels (header : list string) : list string :=
  let unnamed := fun i => String.eqb (nth i header EmptyString) EmptyString in
  let positions := seq 0 (length header) in
  let order := List.filter (fun i => negb (unnamed i)) positions
               ++ List.filter unnamed positions in
  fst (fold_left mangle_at order (name_fields 0 header, [])).

(** A line without fields, or with one blank field, is a blank line, which
    is skipped. *)
Definition blank_line (r : list cell) : bool :=
  match r with
  | [] | [Null] => true
  | _ => false
  end.

(** The type given to a column and what its cells become: in a column with
    text every field stays text; integers that all fit 64 signed bits stay
    integers, or become floats when a field is missing; integers that need
    the unsigned range stay integers when none is negative, none is missing
    and all fit 64 bits, and are left as text otherwise. *)
Definition infer_column (col : list cell) : list cell :=
  if existsb Dtype.is_str col then map Dtype.as_text col
  else if forallb Dtype.fits_int64 col then
    if existsb Dtype.is_null col then map Dtype.as_float col else col
  else if forallb Dtype.fits_uint64 col then col
  else map Dtype.as_text col.

Definition infer_columns (width : nat) (records : list (list cell))
  : list (list cell) :=
  let cols := map (fun j => infer_column (map (fun r => nth j r Null) records))
                  (seq 0 width) in
  map (fun i => map (fun col => nth i col Null) cols) (seq 0 (length records)).

End Csv.

(** [pd.read_csv(path, index_col=0)].  The first record may have more
    fields than the header; the following ones may not have more than that,
    and a record with fewer is filled up with missing values.  When the
    records are as wide as the header, the first column becomes the index
    (named after its header field, unnamed when that is empty) and the
    others the data columns.  When they have one field more, that leading
    field is the index, without a name, and every header field labels a data
    column; more leading fields than the one index column asked for are
    refused. *)
Definition parse_csv (header : list string) (records : list (list cell))
  : result DataFrame :=
  match header, Csv.labels header with
  | h :: _, idx :: cols =>
      let records := List.filter (fun r => negb (Csv.blank_line r)) records in
      let width := Nat.max (length header) (length (hd [] records)) in
      if forallb (fun r => (length r <=? width)%nat) records then
        let cells := Csv.infer_columns width (map (Pandas.pad width) records) in
        match (width - length header)%nat with
        | O =>
            OK {| index_name := if String.eqb h EmptyString then None else Some idx;
                  columns := cols;
                  rows := map (fun r => (hd Null r, tl r)) cells |}
        | S O =>
            OK {| index_name := None;
                  columns := idx :: cols;
                  rows := map (fun r => (hd Null r, tl r)) cells |}
        | _ => Raise ParserError
        end
      else Raise ParserError
  | _, _ => Raise EmptyDataError
  end.

Definition read_csv (path : string) : IO DataFrame :=
  fun w =>
    let w' := emit (FileRead path) w in
    match fs w !! path with
    | None => (Raise FileNotFoundError, w')
    | Some (CsvFile header records) => (parse_csv header records, w')
    | Some _ => (Raise ParserError, w')
    end.

Definition load_data (messages_filepath categories_filepath : string) : IO DataFrame :=
  messages ← read_csv messages_filepath;
  categories ← read_csv categories_filepath;
  lift (Merge.merge_left "id" messages categories).

(* ===================================================================== *)
(** * The Persister: [save_data]                                          *)
(* ===================================================================== *)

Module Sql.

Inductive engine : Type :=
| InMemory
| OnDisk (path : string).

Fixpoint strip_prefix (pre s : string) : option string :=
  match pre, s with
  | EmptyString, _ => Some s
  | String a pre', String b s' => if Ascii.eqb a b then strip_prefix pre' s' else None
  | String _ _, EmptyString => None
  end.

(** [create_engine(url)] for an SQLite URL: the database is the text after
    [sqlite:///], up to a [?] if there is one; an empty name or [:memory:]
    designates a transient in-memory database.  Nothing is opened yet. *)
Definition create_engine (url : string) : result engine :=
  match strip_prefix "sqlite:///" url with
  | None => Raise ValueError
  | Some rest =>
      match PyStr.split "?"%char rest with
      | [] => Raise ValueError
      | database :: _ =>
          if String.eqb database EmptyString || String.eqb database ":memory:"
          then OK InMemory else OK (OnDisk database)
      end
  end.

(** SQLite compares identifiers without regard to ASCII case. *)
Definition lower_char (c : ascii) : ascii :=
  let n := nat_of_ascii c in
  if (65 <=? n)%nat && (n <=? 90)%nat then ascii_of_nat (n + 32) else c.

Fixpoint lower (s : string) : string :=
  match s with
  | EmptyString => EmptyString
  | String c s' => String (lower_char c) (lower s')
  end.

Definition same_ident (a b : string) : bool := String.eqb (lower a) (lower b).

Definition has_table (db : list (string * SqlTable)) (name : string) : bool :=
  existsb (fun t => same_ident (fst t) name) db.

Fixpoint distinct_idents (names : list string) : bool :=
  match names with
  | [] => true
  | n :: names' => negb (existsb (same_ident n) names') && distinct_idents names'
  end.

(** A table needs at least one column, and distinct column names. *)
Definition creatable (cols : list string) : bool :=
  match cols with
  | [] => false
  | _ => distinct_idents cols
  end.

(** The database an engine connects to: a missing file is a new, empty
    database; a file that is not a database is refused. *)
Definition connect (e : engine) (files : gmap string File)
  : result (list (string * SqlTable)) :=
  match e with
  | InMemory => OK []
  | OnDisk path =>
      match files !! path with
      | None => OK []
      | Some (SqliteFile db) => OK db
      | Some _ => Raise DatabaseError
      end
  end.

(** The table made from a frame with [index=False]: its columns and the
    cells of its rows; the index is left out. *)
Definition table_of (df : DataFrame) : SqlTable :=
  {| sql_columns := columns df; sql_rows := map snd (rows df) |}.

(** What [to_sql] refuses before it looks at the database: a table without
    a name, and a column of unsigned 64-bit integers, that is a column of
    integers one of which does not fit 64 signed bits ([ValueError]). *)
Definition storable (col : list cell) : bool :=
  match Dtype.dtype_of col with
  | Dtype.UInt64 => false
  | _ => true
  end.

Definition writable (name : string) (df : DataFrame) : bool :=
  negb (String.eqb name EmptyString)
  && forallb (fun j => storable (Pandas.column_at j (rows df)))
             (seq 0 (length (columns df))).

(** What [to_sql] does to the database it is connected to, with the default
    [if_exists='fail']: an existing table of that name is an error;
    otherwise one table of that name is created and filled. *)
Definition create_table (db : list (string * SqlTable)) (name : string)
    (df : DataFrame) : result (list (string * SqlTable)) :=
  if negb (writable name df) then Raise ValueError
  else if has_table db name then Raise ValueError
  else if negb (creatable (columns df)) then Raise DatabaseError
  else OK (db ++ [(name, table_of df)]).

(** Opening the connection creates the file of a file-backed engine when
    its path is free: a file of no bytes, the database without tables. *)
Definition open (e : engine) : IO unit :=
  fun w =>
    match e with
    | InMemory => (OK tt, w)
    | OnDisk path =>
        match fs w !! path with
        | None => (OK tt, emit (FileWrite path)
                            {| fs := <[path := SqliteFile []]> (fs w); log := log w |})
        | Some _ => (OK tt, w)
        end
    end.

(** The database reaches the disk when the engine is file-backed. *)
Definition commit (e : engine) (db : list (string * SqlTable)) : IO unit :=
  fun w =>
    match e with
    | InMemory => (OK tt, w)
    | OnDisk path =>
        (OK tt, emit (FileWrite path)
                  {| fs := <[path := SqliteFile db]> (fs w); log := log w |})
    end.

(** [df.to_sql(name, engine, index=False)]: the connection is opened, the
    table is prepared from the frame, then looked up in the database and
    created there.  What was done before an exception stays: a file created
    by the connection is left behind. *)
Definition to_sql (df : DataFrame) (name : string) (e : engine) : IO unit :=
  fun w =>
    let w0 := snd (open e w) in
    if negb (writable name df) then (Raise ValueError, w0)
    else
      match connect e (fs w) with
      | Raise x => (Raise x, w0)
      | OK db =>
          match create_table db name df with
          | Raise x => (Raise x, w0)
          | OK db' => commit e db' w0
          end
      end.

End Sql.

Definition save_data (df : DataFrame) (database_filename : string) : IO unit :=
  engine ← lift (Sql.create_engine ("sqlite:///" +:+ database_filename));
  Sql.to_sql df database_filename engine.

(* ===================================================================== *)
(** * The entry point: [main]                                             *)
(* ===================================================================== *)

Definition nl : string := String (ascii_of_nat 10) EmptyString.

Definition usage : string :=
  "Please provide the filepaths of the messages and categories "
  +:+ "datasets as the first and second argument respectively, as "
  +:+ "well as the filepath of the database to save the cleaned data "
  +:+ "to as the third argument. " +:+ nl +:+ nl
  +:+ "Example: python process_data.py "
  +:+ "disaster_messages.csv disaster_categories.csv "
  +:+ "DisasterResponse.db".

(** [main], on [sys.argv] (the program name followed by the positional
    arguments): [len(sys.argv) == 4] with the unpacking of [sys.argv[1:]] is
    the match on a list of four. *)
Definition main (argv : list string) : IO unit :=
  match argv with
  | [_; messages_filepath; categories_filepath; database_filepath] =>
      _ ← print ("Loading data..." +:+ nl +:+ "    MESSAGES: " +:+ messages_filepath
                 +:+ nl +:+ "    CATEGORIES: " +:+ categories_filepath);
      _ ← invoke Loader;
      df ← load_data messages_filepath categories_filepath;
      _ ← print "Cleaning data...";
      _ ← invoke Cleaner;
      df ← lift (clean_data df);
      _ ← print ("Saving data..." +:+ nl +:+ "    DATABASE: " +:+ database_filepath);
      _ ← invoke Persister;
      _ ← save_data df database_filepath;
      print "Cleaned data saved to database!"
  | _ => print usage
  end.

(** The stages invoked during a run, in order. *)
Definition stages (l : list Event) : list Stage :=
  flat_map (fun e => match e with Invoke s => [s] | _ => [] end) l.

(** The files touched during a run. *)
Definition file_accesses (l : list Event) : list string :=
  flat_map (fun e => match e with FileRead p | FileWrite p => [p] | _ => [] end) l.

(** The texts printed during a run. *)
Definition printed (l : list Event) : list string :=
  flat_map (fun e => match e with Stdout t => [t] | _ => [] end) l.

(** ** Notions used to state the properties of the Persister and of [main] *)


(** What [main] prints before each stage. *)
Definition loading_text (m c : string) : string :=
  "Loading data..." +:+ nl +:+ "    MESSAGES: " +:+ m +:+ nl +:+ "    CATEGORIES: " +:+ c.

Definition saving_text (d : string) : string :=
  "Saving data..." +:+ nl +:+ "    DATABASE: " +:+ d.

(** The world when the Loader, the Cleaner and the Persister are entered. *)
Definition at_loader (m c : string) (w : World) : World :=
  emit (Invoke Loader) (emit (Stdout (loading_text m c)) w).

Definition at_cleaner (w : World) : World :=
  emit (Invoke Cleaner) (emit (Stdout "Cleaning data...") w).

Definition at_persister (d : string) (w : World) : World :=
  emit (Invoke Persister) (emit (Stdout (saving_text d)) w).

(** A step that adds nothing to the log. *)
Ltac no_event := exists []; simpl; rewrite app_nil_r; auto.

(* ===================================================================== *)
(** * Sample data                                                         *)
(* ===================================================================== *)

(** A merged record set with a row to filter out and a repeated row. *)
Definition sample_merged : DataFrame :=
  {| index_name := None;
     columns := ["id"; "message"; "categories"];
     rows := [ (Int 0, [Int 7; Str "help"; Str "related-1;offer-0;child_alone-0;request-1"]);
               (Int 1, [Int 8; Str "water"; Str "related-1;offer-1;child_alone-0;request-0"]);
               (Int 2, [Int 9; Str "noise"; Str "related-2;offer-0;child_alone-0;request-0"]);
               (Int 3, [Int 8; Str "water"; Str "related-1;offer-1;child_alone-0;request-0"]) ] |}.

Definition sample_cleaned : DataFrame :=
  {| index_name := None;
     columns := ["id"; "message"; "related"; "offer"; "request"];
     rows := [ (Int 0, [Int 7; Str "help"; Int 1; Int 0; Int 1]);
               (Int 1, [Int 8; Str "water"; Int 1; Int 1; Int 0]) ] |}.

(** A record whose [related] label is neither 0, 1 nor 2. *)
Definition related3_merged : DataFrame :=
  {| index_name := None;
     columns := ["id"; "categories"];
     rows := [ (Int 0, [Int 7; Str "related-3;child_alone-0"]) ] |}.

(** A record with a label name that contains a dash and a two-digit value. *)
Definition dashed_merged : DataFrame :=
  {| index_name := None;
     columns := ["id"; "categories"];
     rows := [ (Int 0, [Int 7; Str "aid-related-1;child_alone-0;related-12"]) ] |}.

(** Input files: message 8 has two category records, message 9 none. *)
Definition messages_csv : File :=
  CsvFile ["id"; "message"; "genre"]
          [ [Int 7; Str "help"; Str "direct"];
            [Int 8; Str "water"; Str "news"];
            [Int 9; Str "noise"; Str "news"] ].

Definition categories_csv : File :=
  CsvFile ["id"; "categories"]
          [ [Int 7; Str "related-1;offer-0;child_alone-0"];
            [Int 8; Str "related-1;offer-1;child_alone-0"];
            [Int 8; Str "related-1;offer-1;child_alone-0"] ].

(** The same categories, one record per message. *)
Definition categories_csv_full : File :=
  CsvFile ["id"; "categories"]
          [ [Int 7; Str "related-1;offer-0;child_alone-0"];
            [Int 8; Str "related-1;offer-1;child_alone-0"];
            [Int 9; Str "related-2;offer-1;child_alone-0"] ].

Definition sample_world : World :=
  {| fs := <["messages.csv" := messages_csv]>
             (<["categories.csv" := categories_csv]>
                (<["full.csv" := categories_csv_full]> ∅));
     log := [] |}.

(** The two sample inputs as frames. *)
Definition sample_messages : DataFrame :=
  {| index_name := Some "id";
     columns := ["message"; "genre"];
     rows := [ (Int 7, [Str "help"; Str "direct"]);
               (Int 8, [Str "water"; Str "news"]);
               (Int 9, [Str "noise"; Str "news"]) ] |}.

Definition sample_categories : DataFrame :=
  {| index_name := Some "id";
     columns := ["categories"];
     rows := [ (Int 7, [Str "related-1;offer-0;child_alone-0"]);
               (Int 8, [Str "related-1;offer-1;child_alone-0"]);
               (Int 8, [Str "related-1;offer-1;child_alone-0"]) ] |}.

(** Inputs with an id beyond 2^53 and a category record without id. *)
Definition wide_ids_world : World :=
  {| fs := <["messages.csv" := CsvFile ["id"; "message"] [ [Int (2 ^ 53 + 1); Str "help"] ]]>
             (<["categories.csv" :=
                  CsvFile ["id"; "categories"]
                          [ [Int (2 ^ 53); Str "related-1;child_alone-0"];
                            [Null; Str "related-0;child_alone-0"] ]]> ∅);
     log := [] |}.

(** What the Loader returns for [messages.csv] and [categories.csv]. *)
Definition sample_loaded : DataFrame :=
  {| index_name := Some "id";
     columns := ["message"; "genre"; "categories"];
     rows := [ (Int 7, [Str "help"; Str "direct"; Str "related-1;offer-0;child_alone-0"]);
               (Int 8, [Str "water"; Str "news"; Str "related-1;offer-1;child_alone-0"]);
               (Int 8, [Str "water"; Str "news"; Str "related-1;offer-1;child_alone-0"]);
               (Int 9, [Str "noise"; Str "news"; Null]) ] |}.

(** A table of another run. *)
Definition earlier_table : SqlTable :=
  {| sql_columns := ["message"]; sql_rows := [ [Str "fire"] ] |}.


(** The sample inputs next to a database that holds a table already. *)
Definition stocked_world : World :=
  {| fs := <["out.db" := SqliteFile [("earlier.db", earlier_table)]]> (fs sample_world);
     log := [] |}.

(* ===================================================================== *)
(** * Further notions and sample data                                     *)
(* ===================================================================== *)

(** What the Cleaner makes of a row of the merged record set whose
    [categories] string decodes to [vals]: the kept cells of the row,
    followed by the kept decoded values. *)
Definition cleaned_cells (df : DataFrame) (names : list string)
    (r : cell * list cell) (vals : list cell) : list cell :=
  keep_mask (map kept (columns df)) (snd r) ++ keep_mask (map kept names) vals.

(** The fields that a row of the right frame of a merge contributes. *)
Definition fields_of (name : string) (df : DataFrame) (r : cell * list cell)
  : list cell :=
  match Merge.resolve_key name df with
  | OK k => Merge.without_key k (snd r)
  | Raise _ => snd r
  end.

(** Two records without a [child_alone] label. *)
Definition no_child_alone_merged : DataFrame :=
  {| index_name := None;
     columns := ["id"; "categories"];
     rows := [ (Int 0, [Int 7; Str "related-1;offer-0;request-1"]);
               (Int 1, [Int 8; Str "related-1;offer-1;request-0"]) ] |}.

(** A second record with one token less than the first. *)
Definition ragged_merged : DataFrame :=
  {| index_name := None;
     columns := ["id"; "categories"];
     rows := [ (Int 0, [Int 7; Str "related-1;offer-0;child_alone-0"]);
               (Int 1, [Int 8; Str "related-1;child_alone-0"]) ] |}.

(** A record set without rows. *)
Definition empty_merged : DataFrame :=
  {| index_name := None; columns := ["id"; "categories"]; rows := [] |}.

(** Messages whose key column is not called [id]. *)
Definition keyless_messages_csv : File :=
  CsvFile ["n"; "message"] [ [Int 7; Str "help"] ].

Definition keyless_world : World :=
  {| fs := <["messages.csv" := keyless_messages_csv]>
             (<["categories.csv" := categories_csv]> ∅);
     log := [] |}.

(** The same inputs where the messages file is absent, and where the
    categories file is. *)
Definition no_messages_world : World :=
  {| fs := <["categories.csv" := categories_csv]> ∅; log := [] |}.

Definition no_categories_world : World :=
  {| fs := <["messages.csv" := messages_csv]> ∅; log := [] |}.

(** The text printed when the run is complete. *)
Definition saved_text : string := "Cleaned data saved to database!".

(** One step of comparing [c +:+ suffix] with a literal, character by
    character. *)
Ltac peel_suffix :=
  match goal with
  | H : ?c +:+ _ = _ |- _ => is_var c; destruct c; inversion H; clear H; subst
  end.

(** Closes an equation between two logs that differ by bracketing only. *)
Ltac log_eq :=
  unfold at_persister, at_cleaner, at_loader, emit; simpl;
  repeat rewrite <- app_assoc; simpl; repeat rewrite <- app_assoc; reflexivity.
(* ===================================================================== *)
(** * Generic facts about the error monad and the frame primitives        *)
(* ===================================================================== *)

Section Traverse.
Context {A B : Type} (f : A -> result B).

Lemma traverse_Forall2 (l : list A) (l' : list B) :
  traverse f l = OK l' <-> Forall2 (fun x y => f x = OK y) l l'.
Proof.
  revert l'. induction l as [|x l IH]; intros l'; simpl.
  - split; intros H.
    + injection H as <-. constructor.
    + inversion H. reflexivity.
  - destruct (f x) as [y|e] eqn:Hx.
    + destruct (traverse f l) as [ys|e] eqn:Hl.
      * split; intros H.
        -- injection H as <-. constructor; [assumption|]. apply IH. reflexivity.
        -- inversion H as [|? ? ? ? Hy Hys]; subst.
           apply IH in Hys. congruence.
      * split; intros H; [discriminate|].
        inversion H as [|? ? ? ? Hy Hys]; subst.
        apply IH in Hys. discriminate.
    + split; intros H; [discriminate|].
      inversion H; subst. congruence.
Qed.

Lemma traverse_length (l : list A) (l' : list B) :
  traverse f l = OK l' -> length l' = length l.
Proof.
  intros H. apply traverse_Forall2 in H.
  symmetry. eapply Forall2_length. exact H.
Qed.

Lemma traverse_Raise (l : list A) (x : A) (e : exn) :
  In x l -> f x = Raise e -> exists e', traverse f l = Raise e'.
Proof.
  induction l as [|y l IH]; simpl; [tauto|].
  intros [->|Hin] Hx.
  - rewrite Hx. eauto.
  - destruct (f y); [|eauto].
    destruct (IH Hin Hx) as [e' ->]. eauto.
Qed.
End Traverse.

Lemma Forall2_compose {A B C : Type} (R : A -> B -> Prop) (S : B -> C -> Prop)
    (l1 : list A) (l2 : list B) (l3 : list C) :
  Forall2 R l1 l2 -> Forall2 S l2 l3 ->
  Forall2 (fun a c => exists b, R a b /\ S b c) l1 l3.
Proof.
  intros H. revert l3. induction H; intros l3 H3; inversion H3; subst.
  - constructor.
  - constructor; eauto.
Qed.

Lemma cell_eqb_eq (a b : cell) : cell_eqb a b = true <-> a = b.
Proof.
  destruct a, b; simpl; split; intros H; try discriminate; try reflexivity.
  - apply Z.eqb_eq in H. congruence.
  - injection H as ->. apply Z.eqb_refl.
  - apply String.eqb_eq in H. congruence.
  - injection H as ->. apply String.eqb_refl.
Qed.

Lemma cells_eqb_eq (a b : list cell) : cells_eqb a b = true <-> a = b.
Proof.
  revert b. induction a as [|x a IH]; intros [|y b]; simpl; split; intros H;
    try discriminate; try reflexivity.
  - apply andb_true_iff in H as [Hx Hab].
    apply cell_eqb_eq in Hx. apply IH in Hab. congruence.
  - injection H as -> ->. apply andb_true_iff. split.
    + apply cell_eqb_eq. reflexivity.
    + apply IH. reflexivity.
Qed.

Module PandasFacts.
Import Pandas.

Lemma positions_from_bounds (i : nat) (name : string) (cols : list string) (p : nat) :
  In p (positions_from i name cols) ->
  (i <= p)%nat /\ nth_error cols (p - i) = Some name.
Proof.
  revert i. induction cols as [|c cols IH]; intros i; simpl; [tauto|].
  destruct (String.eqb c name) eqn:Hc.
  - intros [<-|Hin].
    + split; [lia|]. rewrite Nat.sub_diag. simpl.
      apply String.eqb_eq in Hc. congruence.
    + apply IH in Hin as [Hle Hnth]. split; [lia|].
      replace (p - i)%nat with (S (p - S i)) by lia. exact Hnth.
  - intros Hin. apply IH in Hin as [Hle Hnth]. split; [lia|].
    replace (p - i)%nat with (S (p - S i)) by lia. exact Hnth.
Qed.

Lemma positions_nth (name : string) (cols : list string) (p : nat) :
  In p (positions name cols) -> nth_error cols p = Some name.
Proof.
  intros H. apply positions_from_bounds in H as [_ H].
  rewrite Nat.sub_0_r in H. exact H.
Qed.

Lemma positions_from_mid (i : nat) (c : string) (pre post : list string) :
  In (i + length pre)%nat (positions_from i c (pre ++ c :: post)).
Proof.
  revert i. induction pre as [|x pre IH]; intros i; simpl.
  - rewrite String.eqb_refl. left. lia.
  - specialize (IH (S i)).
    replace (i + S (length pre))%nat with (S i + length pre)%nat by lia.
    destruct (String.eqb x c); [right|]; exact IH.
Qed.

Lemma positions_single_mid (c : string) (pre post : list string) (p : nat) :
  positions c (pre ++ c :: post) = [p] -> p = length pre.
Proof.
  intros H. pose proof (positions_from_mid 0 c pre post) as Hin.
  fold (positions c (pre ++ c :: post)) in Hin. rewrite H in Hin.
  simpl in Hin. destruct Hin as [<-|[]]. reflexivity.
Qed.

Lemma positions_nil (name : string) (cols : list string) :
  positions name cols = [] <-> ~ In name cols.
Proof.
  unfold positions. generalize 0%nat.
  induction cols as [|c cols IH]; intros i; simpl.
  - tauto.
  - destruct (String.eqb c name) eqn:Hc.
    + apply String.eqb_eq in Hc. split; [discriminate|]. intros H. tauto.
    + apply String.eqb_neq in Hc. rewrite IH. tauto.
Qed.

Lemma keep_mask_filter {A : Type} (f : A -> bool) (cols : list A) :
  keep_mask (map f cols) cols = List.filter f cols.
Proof.
  induction cols as [|c cols IH]; simpl; [reflexivity|].
  destruct (f c); simpl; congruence.
Qed.

Lemma keep_mask_length {A B : Type} (mask : list bool) (r : list A) (s : list B) :
  length r = length s -> length (keep_mask mask r) = length (keep_mask mask s).
Proof.
  revert r s. induction mask as [|b mask IH]; intros [|x r] [|y s]; simpl;
    try reflexivity; try discriminate.
  intros H. injection H as H. destruct b; simpl; auto.
Qed.

Lemma keep_mask_combine {A B : Type} (mask : list bool) (r : list A) (s : list B) :
  combine (keep_mask mask r) (keep_mask mask s) = keep_mask mask (combine r s).
Proof.
  revert r s. induction mask as [|b mask IH]; intros [|x r] [|y s]; simpl;
    try reflexivity.
  - destruct b; [|destruct (keep_mask mask r)]; reflexivity.
  - destruct b; simpl; rewrite IH; reflexivity.
Qed.

Lemma keep_mask_In {A : Type} (mask : list bool) (r : list A) (x : A) :
  In x (keep_mask mask r) -> In x r.
Proof.
  revert r. induction mask as [|b mask IH]; intros [|y r]; simpl; try tauto.
  destruct b; simpl; intros H; [destruct H as [H|H]|]; auto.
Qed.

Lemma keep_mask_nil {A : Type} (mask : list bool) : keep_mask mask (@nil A) = [].
Proof. destruct mask; reflexivity. Qed.

Lemma keep_mask_app {A : Type} (m m' : list bool) (a b : list A) :
  length m = length a ->
  keep_mask (m ++ m') (a ++ b) = keep_mask m a ++ keep_mask m' b.
Proof.
  revert a. induction m as [|x m IH]; intros [|y a]; simpl; try discriminate.
  - reflexivity.
  - intros H. injection H as H. rewrite (IH a H). destruct x; reflexivity.
Qed.

(** Masking by [f], then by [g] on what is left, is masking by both. *)
Lemma keep_mask_twice {A B : Type} (f g : A -> bool) (cols : list A) (cells : list B) :
  keep_mask (map g (List.filter f cols)) (keep_mask (map f cols) cells) =
  keep_mask (map (fun c => f c && g c) cols) cells.
Proof.
  revert cells. induction cols as [|c cols IH]; intros cells; simpl.
  - reflexivity.
  - destruct cells as [|x cells].
    + rewrite keep_mask_nil. reflexivity.
    + destruct (f c); simpl; [|apply IH].
      rewrite IH. reflexivity.
Qed.

End PandasFacts.

Module PyStrFacts.
Import PyStr.

Lemma split_not_nil (sep : ascii) (s : string) : split sep s <> [].
Proof.
  destruct s as [|c s]; simpl; [discriminate|].
  destruct (Ascii.eqb c sep); [discriminate|].
  destruct (split sep s); discriminate.
Qed.

(** Joining the pieces of a split gives the string back. *)
Lemma join_split (sep : ascii) (s : string) : join sep (split sep s) = s.
Proof.
  induction s as [|c s IH]; simpl; [reflexivity|].
  destruct (Ascii.eqb c sep) eqn:Hc.
  - apply Ascii.eqb_eq in Hc. subst c.
    pose proof (split_not_nil sep s) as Hne.
    destruct (split sep s) as [|h t]; [congruence|].
    simpl in *. rewrite IH. reflexivity.
  - pose proof (split_not_nil sep s) as Hne.
    destruct (split sep s) as [|h t]; [congruence|].
    destruct t as [|h' t]; simpl in *; rewrite <- IH; reflexivity.
Qed.

Lemma last_char_append (s : string) (d : ascii) :
  last_char (s +:+ String d EmptyString) = Some d.
Proof.
  induction s as [|c s IH]; simpl; [reflexivity|].
  rewrite IH. destruct (s +:+ String d EmptyString) eqn:E; [|reflexivity].
  destruct s; discriminate.
Qed.

End PyStrFacts.

Lemma split_length (sep : ascii) (s : string) :
  length (PyStr.split sep s) = S (count_char sep s).
Proof.
  induction s as [|c s IH]; simpl; [reflexivity|].
  destruct (Ascii.eqb c sep); simpl; [congruence|].
  destruct (PyStr.split sep s); simpl in *; congruence.
Qed.

(** With at most one dash in the token, the text before the first dash is
    the text before the last one. *)
Lemma first_dash_is_last_dash (tok : string) :
  (count_char dash tok <= 1)%nat ->
  name_before_first_dash tok = name_before_last_dash tok.
Proof.
  intros H. unfold name_before_first_dash, name_before_last_dash.
  pose proof (split_length dash tok) as Hlen.
  pose proof (PyStrFacts.join_split dash tok) as Hjoin.
  destruct (PyStr.split dash tok) as [|a [|b [|c l]]]; simpl in *.
  - reflexivity.
  - congruence.
  - reflexivity.
  - lia.
Qed.

(* ===================================================================== *)
(** * The decoding loop                                                   *)
(* ===================================================================== *)

Module DecodeFacts.
Import Pandas PandasFacts.

Lemma decode_cell_spec (x v : cell) :
  decode_cell x = OK v <-> exists s, x = Str s /\ decoded_token s v.
Proof.
  unfold decode_cell, decoded_token, last_of. split.
  - destruct x as [|n|s]; simpl; try discriminate.
    destruct (PyStr.last_char s) as [d|] eqn:Hd; simpl; [|discriminate].
    destruct (PyStr.is_digit d) eqn:Hdig; [|discriminate].
    intros H. injection H as <-. eauto 6.
  - intros (s & -> & d & Hd & Hdig & ->). rewrite Hd. simpl. rewrite Hdig. reflexivity.
Qed.

Lemma decode_cell_Null : forall v, decode_cell Null <> OK v.
Proof. intros v H. discriminate. Qed.

Lemma set_nth_middle (done rest : list cell) (x v : cell) :
  set_nth (length done) v (done ++ x :: rest) = done ++ v :: rest.
Proof. induction done as [|y done IH]; simpl; congruence. Qed.

Lemma set_nth_length (p : nat) (v : cell) (r : list cell) :
  length (set_nth p v r) = length r.
Proof.
  revert p. induction r as [|x r IH]; intros [|p]; simpl; auto.
Qed.

Lemma set_column_traverse (g : cell -> result cell) (p : nat)
    (rs : list (cell * list cell)) (vals : list cell) :
  traverse g (column_at p rs) = OK vals ->
  Forall2 (fun r r' => exists v, g (nth p (snd r) Null) = OK v /\
                                 r' = (fst r, set_nth p v (snd r)))
          rs (set_column p vals rs).
Proof.
  intros H. apply traverse_Forall2 in H. revert vals H.
  induction rs as [|r rs IH]; intros vals H; simpl in *.
  - inversion H. constructor.
  - inversion H as [|? v ? vals' Hv Hvals]; subst. simpl.
    constructor; [eauto|]. apply IH. exact Hvals.
Qed.

Lemma assign_column_spec (g : cell -> result cell) (cats cats' : DataFrame) (c : string) :
  assign_column (traverse g) cats c = OK cats' ->
  exists p, positions c (columns cats) = [p] /\
            columns cats' = columns cats /\
            index_name cats' = index_name cats /\
            Forall2 (fun r r' => exists v, g (nth p (snd r) Null) = OK v /\
                                           r' = (fst r, set_nth p v (snd r)))
                    (rows cats) (rows cats').
Proof.
  unfold assign_column, getitem.
  destruct (positions c (columns cats)) as [|p [|q ps]] eqn:Hpos; simpl;
    try discriminate.
  destruct (traverse g (column_at p (rows cats))) as [vals|e] eqn:Hvals; simpl;
    [|discriminate].
  intros H. injection H as <-. simpl.
  exists p. repeat split. apply set_column_traverse. exact Hvals.
Qed.

Lemma convert_column_spec (cats cats' : DataFrame) (c : string) :
  convert_column cats c = OK cats' ->
  exists p, positions c (columns cats) = [p] /\
            columns cats' = columns cats /\
            index_name cats' = index_name cats /\
            Forall2 (fun r r' => exists v, decode_cell (nth p (snd r) Null) = OK v /\
                                           (p < length (snd r))%nat /\
                                           r' = (fst r, set_nth p v (snd r)))
                    (rows cats) (rows cats').
Proof.
  unfold convert_column.
  destruct (assign_column (traverse last_of) cats c) as [cats1|e] eqn:H1;
    simpl; [|discriminate].
  intros H2. unfold to_numeric in H2.
  apply assign_column_spec in H1 as (p & Hp & Hc1 & Hi1 & Hr1).
  apply assign_column_spec in H2 as (p' & Hp' & Hc2 & Hi2 & Hr2).
  rewrite Hc1, Hp in Hp'. injection Hp' as <-.
  exists p. repeat split; try congruence.
  pose proof (Forall2_compose _ _ _ _ _ Hr1 Hr2) as Hr.
  eapply Forall2_impl; [exact Hr|].
  intros [i cells] r' ([i1 r1] & (v1 & Hv1 & E1) & (v2 & Hv2 & E2)).
  injection E1 as -> ->. simpl in *.
  assert (Hlt : (p < length cells)%nat).
  { destruct (Nat.lt_ge_cases p (length cells)) as [Hlt|Hge]; [exact Hlt|].
    rewrite (nth_overflow _ _ Hge) in Hv1. discriminate. }
  remember (nth p cells Null) as x eqn:Ex.
  destruct (nth_split cells Null Hlt) as (done & rest & Er & Hlen).
  rewrite <- Ex in Er. subst cells p. clear Ex.
  rewrite set_nth_middle in Hv2, E2. rewrite nth_middle in Hv2.
  rewrite set_nth_middle in E2.
  exists v2. split; [|split; [exact Hlt|]].
  - unfold decode_cell. rewrite Hv1. exact Hv2.
  - rewrite set_nth_middle. exact E2.
Qed.

(** The loop over the labels [ls], started when the labels [pre] have been
    handled: every row keeps its first [length pre] cells and has the others
    decoded. *)
Lemma convert_loop_spec (ls pre : list string) (cats cats' : DataFrame) :
  foldM convert_column ls cats = OK cats' ->
  columns cats = pre ++ ls ->
  columns cats' = columns cats /\
  index_name cats' = index_name cats /\
  Forall2 (fun r r' =>
             fst r' = fst r /\
             forall done rest,
               snd r = done ++ rest -> length done = length pre ->
               length rest = length ls ->
               exists rest', snd r' = done ++ rest' /\
                             Forall2 (fun x y => decode_cell x = OK y) rest rest')
          (rows cats) (rows cats').
Proof.
  revert pre cats. induction ls as [|c ls IH]; intros pre cats; simpl.
  - intros H _. injection H as <-. repeat split.
    apply Forall2_same_length_lookup_2; [reflexivity|].
    intros i r r' Hr Hr'. assert (r' = r) as -> by congruence.
    split; [reflexivity|]. intros done [|x rest] E _ Hlen; [|discriminate].
    exists []. split; [exact E|constructor].
  - destruct (convert_column cats c) as [cats1|e] eqn:H1; [|discriminate].
    intros H2 Hcols.
    apply convert_column_spec in H1 as (p & Hp & Hc1 & Hi1 & Hr1).
    rewrite Hcols in Hp. apply positions_single_mid in Hp. subst p.
    destruct (IH (pre ++ [c]) cats1 H2) as (Hc2 & Hi2 & Hr2).
    { rewrite Hc1, Hcols, <- app_assoc. reflexivity. }
    repeat split; try congruence.
    pose proof (Forall2_compose _ _ _ _ _ Hr1 Hr2) as Hr.
    eapply Forall2_impl; [exact Hr|].
    intros r r' ([i1 r1] & (v & Hv & Hlt & E1) & (Hfst & Hrest)).
    injection E1 as -> ->. simpl in *. split; [exact Hfst|].
    intros done [|x rest] E Hdone Hlen; [discriminate|].
    injection Hlen as Hlen.
    rewrite E, <- Hdone in Hv, Hrest. rewrite nth_middle in Hv.
    rewrite set_nth_middle in Hrest.
    destruct (Hrest (done ++ [v]) rest) as (rest' & E' & Hdec).
    { rewrite <- app_assoc. reflexivity. }
    { rewrite !length_app. simpl. lia. }
    { exact Hlen. }
    exists (v :: rest'). split.
    + rewrite E', <- app_assoc. reflexivity.
    + constructor; assumption.
Qed.

Lemma combine_map_same {A B C : Type} (f : A -> B) (g : A -> C) (l : list A) :
  combine (map f l) (map g l) = map (fun x => (f x, g x)) l.
Proof. induction l; simpl; congruence. Qed.

Lemma Forall2_map_left {A B C : Type} (R : B -> C -> Prop) (h : A -> B)
    (l : list A) (l' : list C) :
  Forall2 R (map h l) l' -> Forall2 (fun a c => R (h a) c) l l'.
Proof.
  revert l'. induction l as [|x l IH]; intros l' H; inversion H; subst;
    constructor; auto.
Qed.

Lemma max_len_ge (m : list (list cell)) (r : list cell) :
  In r m -> (length r <= max_len m)%nat.
Proof.
  induction m as [|x m IH]; simpl; [tauto|].
  intros [->|Hin]; [lia|]. specialize (IH Hin). lia.
Qed.

Lemma pad_length (w : nat) (r : list cell) :
  (length r <= w)%nat -> length (pad w r) = w.
Proof.
  intros H. unfold pad. rewrite length_app, repeat_length. lia.
Qed.

Lemma expand_row_length (sep : ascii) (values : list cell) (r : list cell) :
  In r (str_split_expand sep values) ->
  length r = max_len (map (split_cell sep) values).
Proof.
  unfold str_split_expand. intros H. apply in_map_iff in H as (x & <- & Hx).
  apply pad_length, max_len_ge, Hx.
Qed.

(** A function that fails on missing values succeeds on a padded row only
    if the row is a string's tokens, all of them and nothing else. *)
Lemma padded_Forall2 {B : Type} (g : cell -> result B) (w : nat) (c : cell)
    (out : list B) :
  (forall y, g Null <> OK y) ->
  Forall2 (fun x y => g x = OK y) (pad w (split_cell semicolon c)) out ->
  exists s, c = Str s /\
            Forall2 (fun tok y => g (Str tok) = OK y) (PyStr.split semicolon s) out.
Proof.
  unfold pad. intros Hnull H.
  apply Forall2_app_inv_l in H as (a & b & Ha & Hb & ->).
  destruct (w - length (split_cell semicolon c))%nat as [|k]; simpl in Hb.
  - inversion Hb; subst. rewrite app_nil_r.
    destruct c as [|n|s]; simpl in Ha.
    + inversion Ha; subst. exfalso. eapply Hnull. eassumption.
    + inversion Ha; subst. exfalso. eapply Hnull. eassumption.
    + exists s. split; [reflexivity|].
      apply Forall2_map_left in Ha. exact Ha.
  - inversion Hb; subst. exfalso. eapply Hnull. eassumption.
Qed.

Lemma decode_padded (w : nat) (c : cell) (out : list cell) :
  Forall2 (fun x y => decode_cell x = OK y) (pad w (split_cell semicolon c)) out ->
  exists s, c = Str s /\ Forall2 decoded_token (PyStr.split semicolon s) out.
Proof.
  intros H. apply padded_Forall2 in H as (s & -> & H); [|apply decode_cell_Null].
  exists s. split; [reflexivity|].
  eapply Forall2_impl; [exact H|].
  intros tok v Hv. apply decode_cell_spec in Hv as (s' & E & Hd).
  injection E as <-. exact Hd.
Qed.

Lemma name_of_token_spec (tok : string) (name : string) :
  name_of_token (Str tok) = OK name -> name = name_before_first_dash tok.
Proof.
  unfold name_of_token, name_before_first_dash, first_item.
  destruct (PyStr.split dash tok); [discriminate|]. congruence.
Qed.

(** Lines 42 to 46: the names come from the tokens of the first row. *)
Lemma category_colnames_spec (df : DataFrame) (names : list string) :
  category_colnames df = OK names ->
  exists p r0 rest s,
    positions "categories" (columns df) = [p] /\
    rows df = r0 :: rest /\
    nth p (snd r0) Null = Str s /\
    names = map name_before_first_dash (PyStr.split semicolon s).
Proof.
  unfold category_colnames, colnames_of, split_categories, getitem.
  destruct (positions "categories" (columns df)) as [|p [|q ps]] eqn:Hpos; simpl;
    try discriminate.
  destruct (rows df) as [|r0 rest] eqn:Hrows; simpl; [discriminate|].
  intros H. apply traverse_Forall2 in H.
  apply padded_Forall2 in H as (s & Hs & H); [|discriminate].
  exists p, r0, rest, s. repeat split; [exact Hs|].
  clear -H. induction H as [|tok name toks names' Hname _ IH]; simpl; [reflexivity|].
  apply name_of_token_spec in Hname. congruence.
Qed.

(** Lines 42 to 52 as a whole. *)
Lemma decode_categories_spec (df cats : DataFrame) :
  decode_categories df = OK cats ->
  exists p, positions "categories" (columns df) = [p] /\
            category_colnames df = OK (columns cats) /\
            index_name cats = index_name df /\
            Forall2 (fun r r' =>
                       fst r' = fst r /\
                       length (snd r') = length (columns cats) /\
                       exists s, nth p (snd r) Null = Str s /\
                                 Forall2 decoded_token (PyStr.split semicolon s) (snd r'))
                    (rows df) (rows cats).
Proof.
  unfold decode_categories, category_colnames, colnames_of, split_categories, getitem.
  destruct (positions "categories" (columns df)) as [|p [|q ps]] eqn:Hpos; simpl;
    try discriminate.
  set (matrix := str_split_expand semicolon (column_at p (rows df))).
  destruct matrix as [|row0 matrix'] eqn:Hm; simpl; [discriminate|].
  destruct (traverse name_of_token row0) as [names|e] eqn:Hnames; simpl; [|discriminate].
  intros Hloop.
  apply (convert_loop_spec names [] _ cats) in Hloop as (Hc & Hi & Hr); [|reflexivity].
  simpl in Hc, Hi, Hr.
  exists p. repeat split; [congruence|exact Hi|].
  assert (Hw : length names = max_len (map (split_cell semicolon) (column_at p (rows df)))).
  { rewrite (traverse_length _ _ _ Hnames).
    apply expand_row_length. fold matrix. rewrite Hm. left. reflexivity. }
  assert (Hall : forall r, In r (rows df) ->
            length (pad (length names) (split_cell semicolon (nth p (snd r) Null)))
            = length names).
  { intros r Hin. apply pad_length. rewrite Hw. apply max_len_ge.
    unfold column_at. rewrite map_map. apply in_map_iff. eauto. }
  rewrite <- Hm in Hr. unfold matrix, str_split_expand in Hr. cbv zeta in Hr.
  rewrite <- Hw in Hr. unfold column_at in Hr.
  rewrite !map_map, combine_map_same in Hr.
  apply Forall2_map_left in Hr.
  apply Forall2_same_length_lookup_2; [eapply Forall2_length; exact Hr|].
  intros i r r' Hir Hir'.
  destruct (Forall2_lookup_lr _ _ _ _ _ _ Hr Hir Hir') as (Hfst & Hrest).
  simpl in Hfst, Hrest.
  assert (Hin : In r (rows df)).
  { apply list_elem_of_In. eapply list_elem_of_lookup_2. exact Hir. }
  split; [exact Hfst|].
  destruct (Hrest [] _ eq_refl eq_refl (Hall r Hin)) as (rest' & E & Hdec).
  simpl in E. rewrite E. split.
  - rewrite Hc. apply Forall2_length in Hdec. rewrite <- Hdec. apply Hall, Hin.
  - eapply decode_padded. exact Hdec.
Qed.

End DecodeFacts.

(* ===================================================================== *)
(** * The steps after the loop                                            *)
(* ===================================================================== *)

Module CleanFacts.
Import Pandas PandasFacts DecodeFacts.

Lemma drop_spec (label : string) (df d : DataFrame) :
  drop label df = OK d ->
  In label (columns df) /\
  index_name d = index_name df /\
  columns d = List.filter (keeps label) (columns df) /\
  rows d = map (fun r => (fst r, keep_mask (map (keeps label) (columns df)) (snd r)))
             (rows df).
Proof.
  unfold drop. destruct (positions label (columns df)) as [|p ps] eqn:Hpos.
  - discriminate.
  - intros H. injection H as <-. simpl. repeat split.
    + destruct (in_dec string_dec label (columns df)) as [Hin|Hnin]; [exact Hin|].
      apply positions_nil in Hnin. congruence.
    + apply (keep_mask_filter (keeps label)).
Qed.

Lemma drop_not_In (label : string) (df d : DataFrame) :
  drop label df = OK d -> ~ In label (columns d).
Proof.
  intros H. apply drop_spec in H as (_ & _ & -> & _).
  intros Hin. apply filter_In in Hin as [_ Hk].
  unfold keeps in Hk. rewrite String.eqb_refl in Hk. discriminate.
Qed.

Lemma drop_wf (label : string) (df d : DataFrame) :
  drop label df = OK d -> wf_frame df -> wf_frame d.
Proof.
  intros H Hwf. apply drop_spec in H as (_ & _ & Hc & Hr).
  unfold wf_frame in *. rewrite Hr, Hc, <- (keep_mask_filter (keeps label)).
  apply Forall_map. eapply Forall_impl; [exact Hwf|].
  intros r Hlen. simpl. apply keep_mask_length. exact Hlen.
Qed.

Lemma filter_ne_spec (label : string) (k : Z) (df d : DataFrame) :
  filter_ne label k df = OK d ->
  exists p, positions label (columns df) = [p] /\
            index_name d = index_name df /\
            columns d = columns df /\
            rows d = List.filter (fun r => negb (cell_eqb (nth p (snd r) Null) (Int k)))
                       (rows df).
Proof.
  unfold filter_ne, getitem.
  destruct (positions label (columns df)) as [|p [|q ps]] eqn:Hpos; simpl;
    try discriminate.
  intros H. injection H as <-. simpl. eauto.
Qed.

Lemma drop_dups_In (seen : list (list cell)) (rs : list (cell * list cell))
    (r : cell * list cell) :
  In r (drop_dups seen rs) -> In r rs /\ ~ In (snd r) seen.
Proof.
  revert seen. induction rs as [|x rs IH]; intros seen; simpl; [tauto|].
  destruct (existsb (cells_eqb (snd x)) seen) eqn:Hex.
  - intros H. apply IH in H. tauto.
  - intros [<-|H].
    + split; [tauto|]. intros Hin.
      assert (existsb (cells_eqb (snd x)) seen = true); [|congruence].
      apply existsb_exists. exists (snd x). split; [exact Hin|].
      apply cells_eqb_eq. reflexivity.
    + apply IH in H as [H1 H2]. split; [tauto|].
      intros Hin. apply H2. right. exact Hin.
Qed.

Lemma drop_dups_NoDup (seen : list (list cell)) (rs : list (cell * list cell)) :
  NoDup (map snd (drop_dups seen rs)).
Proof.
  revert seen. induction rs as [|x rs IH]; intros seen; simpl; [constructor|].
  destruct (existsb (cells_eqb (snd x)) seen); [apply IH|].
  simpl. constructor; [|apply IH].
  intros Hin. apply list_elem_of_In, in_map_iff in Hin as (r & E & Hr).
  apply drop_dups_In in Hr as [_ Hr]. apply Hr. left. congruence.
Qed.

(** Rows that are pairwise distinct and not yet seen all survive. *)
Lemma drop_dups_fixed (seen : list (list cell)) (rs : list (cell * list cell)) :
  NoDup (map snd rs) ->
  (forall r, In r rs -> ~ In (snd r) seen) ->
  drop_dups seen rs = rs.
Proof.
  revert seen. induction rs as [|x rs IH]; intros seen Hnd Hfresh; simpl;
    [reflexivity|].
  simpl in Hnd. apply NoDup_cons in Hnd as [Hx Hnd].
  rewrite list_elem_of_In in Hx.
  destruct (existsb (cells_eqb (snd x)) seen) eqn:Hex.
  - apply existsb_exists in Hex as (y & Hy & E). apply cells_eqb_eq in E. subst y.
    exfalso. apply (Hfresh x); [left; reflexivity|exact Hy].
  - f_equal. apply IH; [exact Hnd|].
    intros r Hr [E|Hin].
    + apply Hx. rewrite E. apply in_map. exact Hr.
    + apply (Hfresh r); [right; exact Hr|exact Hin].
Qed.

Lemma drop_duplicates_idempotent (df : DataFrame) :
  drop_duplicates (drop_duplicates df) = drop_duplicates df.
Proof.
  unfold drop_duplicates. simpl. f_equal.
  apply drop_dups_fixed; [apply drop_dups_NoDup|].
  intros r _ [].
Qed.

(** The stages of [clean_data], one frame after the other. *)
Lemma clean_data_inv (df out : DataFrame) :
  clean_data df = OK out ->
  exists cats d1 d2 d3,
    decode_categories df = OK cats /\
    drop "categories" (concat_axis1 df cats) = OK d1 /\
    drop "child_alone" d1 = OK d2 /\
    filter_ne "related" 2 d2 = OK d3 /\
    out = drop_duplicates d3.
Proof.
  unfold clean_data.
  destruct (decode_categories df) as [cats|e] eqn:H0; simpl; [|discriminate].
  destruct (drop "categories" (concat_axis1 df cats)) as [d1|e] eqn:H1; simpl;
    [|discriminate].
  destruct (drop "child_alone" d1) as [d2|e] eqn:H2; simpl; [|discriminate].
  destruct (filter_ne "related" 2 d2) as [d3|e] eqn:H3; simpl; [|discriminate].
  intros H. injection H as <-. exists cats, d1, d2, d3. auto.
Qed.

Lemma zip_rows_In (a b : list (cell * list cell)) (x : cell * list cell)
    (R : cell * list cell -> cell * list cell -> Prop) :
  Forall2 R a b -> In x (zip_rows a b) ->
  exists ra rb, In ra a /\ R ra rb /\ x = (fst ra, snd ra ++ snd rb).
Proof.
  intros H. induction H as [|ra rb a b Hab Hrest IH]; simpl; [tauto|].
  intros [<-|Hin].
  - exists ra, rb. tauto.
  - destruct (IH Hin) as (ra' & rb' & H1 & H2 & H3). exists ra', rb'. tauto.
Qed.

Lemma combine_app_same {A B : Type} (a a' : list A) (b b' : list B) :
  length a = length b -> combine (a ++ a') (b ++ b') = combine a b ++ combine a' b'.
Proof.
  revert b. induction a as [|x a IH]; intros [|y b]; simpl; try discriminate.
  - reflexivity.
  - intros H. injection H as H. rewrite IH by exact H. reflexivity.
Qed.

Lemma nth_error_combine_In {A B : Type} (a : list A) (b : list B) (p : nat) (x : A) (y : B) :
  nth_error a p = Some x -> nth_error b p = Some y -> In (x, y) (combine a b).
Proof.
  revert a b. induction p as [|p IH]; intros [|x' a] [|y' b]; simpl; try discriminate.
  - intros H1 H2. injection H1 as ->. injection H2 as ->. left. reflexivity.
  - intros H1 H2. right. apply IH; assumption.
Qed.

Lemma digit_value_range (d : ascii) :
  PyStr.is_digit d = true -> 0 <= PyStr.digit_value d <= 9.
Proof.
  unfold PyStr.is_digit, PyStr.digit_value. intros H.
  apply andb_true_iff in H as [H1 H2].
  apply Nat.leb_le in H1, H2. lia.
Qed.

Lemma drop_pairs (label : string) (df d : DataFrame) (r : cell * list cell)
    (l : string) (c : cell) :
  drop label df = OK d -> In r (rows d) -> In (l, c) (combine (columns d) (snd r)) ->
  exists r0, In r0 (rows df) /\ fst r0 = fst r /\
             In (l, c) (combine (columns df) (snd r0)).
Proof.
  intros H Hr Hin. apply drop_spec in H as (_ & _ & Hc & Hrows).
  rewrite Hrows in Hr. apply in_map_iff in Hr as (r0 & <- & Hr0).
  exists r0. repeat split; [exact Hr0|].
  rewrite Hc, <- (keep_mask_filter (keeps label)) in Hin. simpl in Hin.
  rewrite keep_mask_combine in Hin. eapply keep_mask_In. exact Hin.
Qed.

Lemma concat_wf (df cats : DataFrame) :
  wf_frame df ->
  Forall2 (fun r r' => length (snd r') = length (columns cats)) (rows df) (rows cats) ->
  wf_frame (concat_axis1 df cats).
Proof.
  unfold wf_frame, concat_axis1. simpl. intros Hwf H.
  induction H as [|r r' rs rs' Hlen _ IH]; simpl; [constructor|].
  apply Forall_cons_iff in Hwf as [Hr Hwf].
  constructor; [|apply IH, Hwf].
  simpl. rewrite !length_app. congruence.
Qed.

(** A cell of a decoded row is a decimal digit. *)
Lemma decoded_row_digit (toks : list string) (vals : list cell) (c : cell) :
  Forall2 decoded_token toks vals -> In c vals ->
  exists n, c = Int n /\ 0 <= n <= 9.
Proof.
  intros H. induction H as [|tok v toks vals Hv _ IH]; simpl; [tauto|].
  intros [<-|Hin]; [|exact (IH Hin)].
  destruct Hv as (d & _ & Hd & ->). eauto using digit_value_range.
Qed.

(** The shape of what [clean_data] returns: the kept columns of the input
    followed by the kept label columns, and in every row the kept cells of an
    input row followed by the kept decoded values of that row's tokens. *)
Lemma clean_data_shape (df out : DataFrame) :
  clean_data df = OK out ->
  exists p names,
    positions "categories" (columns df) = [p] /\
    category_colnames df = OK names /\
    columns out = List.filter kept (columns df) ++ List.filter kept names /\
    (wf_frame df ->
     forall r, In r (rows out) ->
       exists ra s vals,
         In ra (rows df) /\ fst r = fst ra /\
         nth p (snd ra) Null = Str s /\
         Forall2 decoded_token (PyStr.split semicolon s) vals /\
         snd r = keep_mask (map kept (columns df)) (snd ra)
                 ++ keep_mask (map kept names) vals).
Proof.
  intros H.
  apply clean_data_inv in H as (cats & d1 & d2 & d3 & H0 & H1 & H2 & H3 & ->).
  apply decode_categories_spec in H0 as (p & Hp & Hnames & _ & Hrows).
  apply drop_spec in H1 as (_ & _ & C1 & R1).
  apply drop_spec in H2 as (_ & _ & C2 & R2).
  apply filter_ne_spec in H3 as (q & _ & _ & C3 & R3).
  simpl in C1, R1.
  assert (Hfilter : forall l, List.filter (keeps "child_alone")
                                (List.filter (keeps "categories") l)
                              = List.filter kept l).
  { induction l as [|c l IH]; simpl; [reflexivity|]. unfold kept at 1.
    destruct (keeps "categories" c); simpl; rewrite IH; reflexivity. }
  exists p, (columns cats). split; [exact Hp|]. split; [exact Hnames|]. split.
  - simpl. rewrite C3, C2, C1, Hfilter. apply List.filter_app.
  - intros Hwf r Hr. simpl in Hr.
    apply drop_dups_In in Hr as [Hr _]. rewrite R3 in Hr.
    apply filter_In in Hr as [Hr _]. rewrite R2 in Hr.
    apply in_map_iff in Hr as (r1 & <- & Hr1). rewrite R1 in Hr1.
    apply in_map_iff in Hr1 as (r0 & <- & Hr0).
    destruct (zip_rows_In _ _ _ _ Hrows Hr0) as (ra & rb & Hra & Hab & ->).
    destruct Hab as (_ & _ & s & Hs & Hdec).
    exists ra, s, (snd rb). simpl.
    split; [exact Hra|]. split; [reflexivity|]. split; [exact Hs|].
    split; [exact Hdec|].
    rewrite C1, keep_mask_twice.
    change (fun c => keeps "categories" c && keeps "child_alone" c) with kept.
    rewrite map_app. apply keep_mask_app. rewrite length_map.
    unfold wf_frame in Hwf. rewrite Forall_forall in Hwf.
    symmetry. apply Hwf, list_elem_of_In, Hra.
Qed.

End CleanFacts.

(* ===================================================================== *)
(** * The left join                                                       *)
(* ===================================================================== *)

Module MergeFacts.
Import Pandas PandasFacts Merge.

Lemma cell_eqb_refl (a : cell) : cell_eqb a a = true.
Proof. apply cell_eqb_eq. reflexivity. Qed.

Lemma cell_eqb_sym (a b : cell) : cell_eqb a b = cell_eqb b a.
Proof.
  destruct (cell_eqb a b) eqn:E.
  - apply cell_eqb_eq in E. subst. symmetry. apply cell_eqb_refl.
  - destruct (cell_eqb b a) eqn:E'; [|reflexivity].
    apply cell_eqb_eq in E'. subst. rewrite cell_eqb_refl in E. discriminate.
Qed.

Lemma occurrences_app (i : cell) (a b : list cell) :
  occurrences i (a ++ b) = (occurrences i a + occurrences i b)%nat.
Proof. unfold occurrences. rewrite List.filter_app, length_app. reflexivity. Qed.

Lemma occurrences_cons (i k : cell) (l : list cell) :
  occurrences i (k :: l) = ((if cell_eqb i k then 1 else 0) + occurrences i l)%nat.
Proof. unfold occurrences. simpl. destruct (cell_eqb i k); reflexivity. Qed.

Lemma occurrences_repeat (i k : cell) (n : nat) :
  occurrences i (repeat k n) = if cell_eqb i k then n else 0%nat.
Proof.
  unfold occurrences. induction n as [|n IH]; simpl.
  - destruct (cell_eqb i k); reflexivity.
  - destruct (cell_eqb i k) eqn:E; simpl; rewrite IH; reflexivity.
Qed.

Lemma occurrences_map_key (k : cell) (kr : key_ref) (right : list (cell * list cell)) :
  occurrences k (map (key_of kr) right) =
  length (List.filter (fun r => same_key false (key_of kr r) k) right).
Proof.
  unfold occurrences, same_key. induction right as [|r right IH]; simpl; [reflexivity|].
  rewrite (cell_eqb_sym (key_of kr r) k).
  destruct (cell_eqb k (key_of kr r)); simpl; congruence.
Qed.

(** ** Keys that a float holds exactly *)

Lemma round_f64_exact (z : Z) : Z.abs z <= 2 ^ 53 -> Dtype.round_f64 z = z.
Proof.
  intros H. destruct (Z.eq_dec (Z.abs z) (2 ^ 53)) as [E|E].
  - destruct (Z.abs_eq_or_opp z) as [E'|E']; rewrite E' in E.
    + subst z. reflexivity.
    + assert (z = - 2 ^ 53) by lia. subst z. reflexivity.
  - unfold Dtype.round_f64.
    assert (Hlog : Z.log2 (Z.abs z) - 52 <= 0).
    { destruct (Z.eq_dec (Z.abs z) 0) as [E0|E0]; [rewrite E0; simpl; lia|].
      assert (Z.log2 (Z.abs z) < 53); [|lia].
      apply Z.log2_lt_pow2; lia. }
    apply Z.leb_le in Hlog. rewrite Hlog. reflexivity.
Qed.

Lemma as_float_exact (c : cell) : Dtype.exact c = true -> Dtype.as_float c = c.
Proof.
  destruct c as [|z|s]; simpl; try reflexivity.
  intros H. apply Z.leb_le in H. rewrite round_f64_exact by exact H. reflexivity.
Qed.

Lemma same_key_exact (coerce : bool) (a b : cell) :
  Dtype.exact a = true -> Dtype.exact b = true ->
  same_key coerce a b = cell_eqb a b.
Proof.
  intros Ha Hb. unfold same_key. destruct coerce; [|reflexivity].
  rewrite (as_float_exact _ Ha), (as_float_exact _ Hb). reflexivity.
Qed.

(** On exact keys the join does not depend on the types of the key
    columns. *)
Lemma join_rows_exact (coerce : bool) (kl kr : key_ref) (n : nat)
    (left right : list (cell * list cell)) :
  Forall (fun c => Dtype.exact c = true) (map (key_of kl) left) ->
  Forall (fun c => Dtype.exact c = true) (map (key_of kr) right) ->
  join_rows coerce kl kr n left right = join_rows false kl kr n left right.
Proof.
  intros Hl Hr. unfold join_rows.
  induction left as [|l left IH]; [reflexivity|].
  apply Forall_cons_1 in Hl as [Hk Hl]. cbn [flat_map].
  rewrite (IH Hl). f_equal.
  replace (List.filter (fun r => same_key coerce (key_of kr r) (key_of kl l)) right)
    with (List.filter (fun r => same_key false (key_of kr r) (key_of kl l)) right);
    [reflexivity|].
  apply filter_ext_in. intros r Hin. symmetry.
  rewrite (same_key_exact coerce); [reflexivity| |exact Hk].
  rewrite Forall_forall in Hr. apply Hr, list_elem_of_In, in_map, Hin.
Qed.

(** The keys of the joined rows: each left key, once per match and at least
    once. *)
Lemma join_rows_keys (kl kr : key_ref) (n : nat) (left right : list (cell * list cell)) :
  map fst (join_rows false kl kr n left right) =
  flat_map (fun l => repeat (key_of kl l)
                       (Nat.max 1 (occurrences (key_of kl l) (map (key_of kr) right))))
           left.
Proof.
  unfold join_rows. induction left as [|l left IH]; [reflexivity|].
  cbn [flat_map]. rewrite map_app, IH. f_equal.
  rewrite occurrences_map_key.
  destruct (List.filter (fun r => same_key false (key_of kr r) (key_of kl l)) right)
    as [|m ms]; simpl; [reflexivity|].
  f_equal. rewrite map_map. simpl.
  clear. induction ms as [|x ms IH]; simpl; congruence.
Qed.

Lemma join_rows_count (kl kr : key_ref) (n : nat) (left right : list (cell * list cell))
    (i : cell) :
  occurrences i (map fst (join_rows false kl kr n left right)) =
  (occurrences i (map (key_of kl) left)
   * Nat.max 1 (occurrences i (map (key_of kr) right)))%nat.
Proof.
  rewrite join_rows_keys. induction left as [|l left IH]; [reflexivity|].
  cbn [flat_map map]. rewrite occurrences_app, IH, occurrences_repeat, occurrences_cons.
  destruct (cell_eqb i (key_of kl l)) eqn:E; [|lia].
  apply cell_eqb_eq in E. subst i. lia.
Qed.

(** Where a joined row comes from. *)
Lemma join_rows_In (kl kr : key_ref) (n : nat) (left right : list (cell * list cell))
    (x : cell * list cell) :
  In x (join_rows false kl kr n left right) ->
  exists l, In l left /\ fst x = key_of kl l /\
    ((occurrences (fst x) (map (key_of kr) right) = 0%nat /\
      snd x = snd l ++ repeat Null n) \/
     (exists r, In r right /\ key_of kr r = fst x /\
                snd x = snd l ++ without_key kr (snd r))).
Proof.
  unfold join_rows. intros H. apply in_flat_map in H as (l & Hl & H).
  exists l. split; [exact Hl|].
  destruct (List.filter (fun r => same_key false (key_of kr r) (key_of kl l)) right)
    as [|m ms] eqn:Hf.
  - destruct H as [<-|[]]. simpl. split; [reflexivity|]. left.
    rewrite occurrences_map_key, Hf. split; reflexivity.
  - apply in_map_iff in H as (r & <- & Hr). simpl. split; [reflexivity|]. right.
    rewrite <- Hf in Hr. apply filter_In in Hr as [Hr E].
    apply cell_eqb_eq in E. eauto.
Qed.

Lemma range_index_map {B : Type} (f : cell * list cell -> B) (g : list cell -> B)
    (i : Z) (rs : list (list cell)) :
  (forall j r, f (Int j, r) = g r) ->
  map f (range_index i rs) = map g rs.
Proof.
  intros H. revert i. induction rs as [|r rs IH]; intros i; simpl; [reflexivity|].
  rewrite H, IH. reflexivity.
Qed.

Lemma range_index_In (i : Z) (rs : list (list cell)) (x : cell * list cell) :
  In x (range_index i rs) -> In (snd x) rs.
Proof.
  revert i. induction rs as [|r rs IH]; intros i; simpl; [tauto|].
  intros [<-|H]; [left; reflexivity|right; eapply IH; exact H].
Qed.

Lemma positions_from_app (i : nat) (name : string) (a b : list string) :
  positions_from i name (a ++ b) =
  positions_from i name a ++ positions_from (i + length a) name b.
Proof.
  revert i. induction a as [|c a IH]; intros i; simpl.
  - rewrite Nat.add_0_r. reflexivity.
  - rewrite IH. replace (S i + length a)%nat with (i + S (length a))%nat by lia.
    destruct (String.eqb c name); reflexivity.
Qed.

Lemma positions_from_nil (i : nat) (name : string) (cols : list string) :
  ~ In name cols -> positions_from i name cols = [].
Proof.
  revert i. induction cols as [|c cols IH]; intros i Hnin; simpl; [reflexivity|].
  destruct (String.eqb c name) eqn:E.
  - apply String.eqb_eq in E. exfalso. apply Hnin. left. exact E.
  - apply IH. intros H. apply Hnin. right. exact H.
Qed.

Lemma positions_from_In_name (i : nat) (name : string) (cols : list string) :
  positions_from i name cols = [] -> ~ In name cols.
Proof.
  revert i. induction cols as [|c cols IH]; intros i; simpl; [tauto|].
  destruct (String.eqb c name) eqn:E; [discriminate|].
  apply String.eqb_neq in E. intros H [Hc|Hin]; [congruence|].
  exact (IH _ H Hin).
Qed.

(** Removing the only column of a given label leaves none. *)
Lemma remove_single_position (i : nat) (name : string) (cols : list string) (p : nat) :
  positions_from i name cols = [p] -> ~ In name (remove_at (p - i) cols).
Proof.
  revert i. induction cols as [|c cols IH]; intros i; simpl; [discriminate|].
  destruct (String.eqb c name) eqn:E.
  - intros H. injection H as <- H. rewrite Nat.sub_diag. unfold remove_at. simpl.
    eapply positions_from_In_name. exact H.
  - intros H.
    assert (Hin : In p (positions_from (S i) name cols)) by (rewrite H; left; reflexivity).
    apply positions_from_bounds in Hin as [Hle _].
    replace (p - i)%nat with (S (p - S i)) by lia.
    unfold remove_at. simpl. apply String.eqb_neq in E.
    intros [Hc|Hin]; [congruence|]. exact (IH _ H Hin).
Qed.

Lemma without_key_no_name (name : string) (df : DataFrame) (k : key_ref) :
  resolve_key name df = OK k -> ~ In name (without_key k (columns df)).
Proof.
  unfold resolve_key.
  destruct (positions name (columns df)) as [|p [|q ps]] eqn:Hpos;
    destruct (is_level name df); try discriminate; intros H; injection H as <-; simpl.
  - apply positions_nil. exact Hpos.
  - pose proof (remove_single_position 0 name (columns df) p Hpos) as Hr.
    rewrite Nat.sub_0_r in Hr. exact Hr.
Qed.

Lemma resolve_key_column (name : string) (df : DataFrame) (p : nat) :
  resolve_key name df = OK (KeyColumn p) <->
  positions name (columns df) = [p] /\ is_level name df = false.
Proof.
  unfold resolve_key.
  destruct (positions name (columns df)) as [|q [|q' ps]]; destruct (is_level name df);
    split; try discriminate; try (intros [? ?]; discriminate).
  - intros H. injection H as ->. auto.
  - intros [H _]. injection H as ->. reflexivity.
Qed.

Lemma resolve_key_index (name : string) (df : DataFrame) :
  resolve_key name df = OK KeyIndex <->
  positions name (columns df) = [] /\ is_level name df = true.
Proof.
  unfold resolve_key.
  destruct (positions name (columns df)) as [|q [|q' ps]]; destruct (is_level name df);
    split; try discriminate; try (intros [? ?]; discriminate); auto.
Qed.

Lemma with_suffix_positions (i : nat) (name sfx : string) (others cols : list string) :
  ~ In name others -> (forall c, c +:+ sfx <> name) ->
  positions_from i name (with_suffix sfx others cols) = positions_from i name cols.
Proof.
  intros Hnin Hsfx. revert i. induction cols as [|c cols IH]; intros i; simpl;
    [reflexivity|].
  rewrite IH. destruct (existsb (String.eqb c) others) eqn:Hex.
  - apply existsb_exists in Hex as (o & Ho & E). apply String.eqb_eq in E. subst o.
    destruct (String.eqb (c +:+ sfx) name) eqn:E1.
    { apply String.eqb_eq in E1. exfalso. exact (Hsfx _ E1). }
    destruct (String.eqb c name) eqn:E2; [|reflexivity].
    apply String.eqb_eq in E2. subst c. tauto.
  - reflexivity.
Qed.

Lemma with_suffix_no_name (name sfx : string) (others cols : list string) :
  ~ In name cols -> (forall c, c +:+ sfx <> name) ->
  ~ In name (with_suffix sfx others cols).
Proof.
  intros Hnin Hsfx Hin. unfold with_suffix in Hin.
  apply in_map_iff in Hin as (c & E & Hc).
  destruct (existsb (String.eqb c) others).
  - exact (Hsfx _ E).
  - subst c. tauto.
Qed.

Section MergeLeft.
Variables (name : string) (left right out : DataFrame).
Hypothesis Hx : forall c, c +:+ "_x" <> name.
Hypothesis Hy : forall c, c +:+ "_y" <> name.
Hypothesis Hwf : wf_frame left.
Hypothesis Hleft : Forall (fun c => Dtype.exact c = true) (ids name left).
Hypothesis Hright : Forall (fun c => Dtype.exact c = true) (ids name right).
Hypothesis Hmerge : merge_left name left right = OK out.

(** What a successful merge on exact keys returns: the joined rows, with the
    key where [resolve_key] finds it again. *)
Lemma merge_left_spec :
  exists kl kr ko,
    resolve_key name left = OK kl /\
    resolve_key name right = OK kr /\
    resolve_key name out = OK ko /\
    let joined := join_rows false kl kr (length (without_key kr (columns right)))
                    (rows left) (rows right) in
    map (key_of ko) (rows out) = map fst joined /\
    forall r, In r (rows out) ->
      exists j front, In j joined /\ key_of ko r = fst j /\ snd r = front ++ snd j.
Proof.
  unfold merge_left in Hmerge.
  destruct (resolve_key name left) as [kl|e] eqn:Hkl; simpl in Hmerge; [|discriminate].
  destruct (resolve_key name right) as [kr|e] eqn:Hkr; simpl in Hmerge; [|discriminate].
  destruct (mergeable _ _); simpl in Hmerge; [|discriminate].
  unfold ids, id_of in Hleft, Hright. rewrite Hkl in Hleft. rewrite Hkr in Hright.
  rewrite (join_rows_exact _ _ _ _ _ _ Hleft Hright) in Hmerge.
  pose proof (without_key_no_name _ _ _ Hkr) as Hr.
  set (rcols := without_key kr (columns right)) in *.
  set (joined := join_rows false kl kr (length rcols) (rows left) (rows right)) in *.
  assert (Hcols : forall a,
            positions name (with_suffix "_x" rcols (columns left)
                            ++ with_suffix "_y" a rcols)
            = positions name (columns left)).
  { intros a. unfold positions. rewrite positions_from_app.
    rewrite (with_suffix_positions _ _ _ _ _ Hr Hx).
    rewrite (positions_from_nil _ name (with_suffix "_y" a rcols));
      [apply app_nil_r|].
    apply with_suffix_no_name; assumption. }
  destruct kl as [pl|].
  - (* the key is a column of the left frame *)
    apply resolve_key_column in Hkl as [Hpl Hlev].
    assert (Hout : out = {| index_name := None;
                            columns := with_suffix "_x" rcols (columns left)
                                       ++ with_suffix "_y" (columns left) rcols;
                            rows := range_index 0 (map snd joined) |}).
    { destruct kr; injection Hmerge as <-; reflexivity. }
    clear Hmerge. exists (KeyColumn pl), kr, (KeyColumn pl).
    split; [reflexivity|].
    split; [reflexivity|].
    split; [apply resolve_key_column; rewrite Hout; simpl; rewrite Hcols; auto|].
    assert (Hkey : forall j, In j joined -> nth pl (snd j) Null = fst j).
    { intros j Hj. apply join_rows_In in Hj as (l & Hl & Hfst & Hsnd).
      assert (Hlt : (pl < length (snd l))%nat).
      { unfold wf_frame in Hwf. rewrite Forall_forall in Hwf.
        rewrite (Hwf l) by (apply list_elem_of_In; exact Hl).
        apply nth_error_Some.
        rewrite (positions_nth name (columns left) pl); [discriminate|].
        rewrite Hpl. left. reflexivity. }
      rewrite Hfst. simpl.
      destruct Hsnd as [[_ ->]|(r & _ & _ & ->)]; apply app_nth1; exact Hlt. }
    cbv zeta. fold rcols. fold joined. split.
    + rewrite Hout. simpl.
      rewrite (range_index_map _ (fun cells => nth pl cells Null)) by reflexivity.
      rewrite map_map. apply map_ext_in. exact Hkey.
    + intros r Hin. rewrite Hout in Hin. simpl in Hin.
      apply range_index_In, in_map_iff in Hin as (j & E & Hj).
      exists j, []. split; [exact Hj|]. split; [|simpl; congruence].
      simpl. rewrite <- E. apply Hkey, Hj.
  - (* the key is the index of the left frame *)
    apply resolve_key_index in Hkl as [Hpl Hlev].
    destruct kr as [pr|]; injection Hmerge as <-.
    + exists KeyIndex, (KeyColumn pr), (KeyColumn 0).
      split; [reflexivity|].
      split; [reflexivity|].
      split.
      { apply resolve_key_column. simpl. split; [|reflexivity].
        unfold positions. simpl. rewrite String.eqb_refl. f_equal.
        apply positions_from_nil. intros Hin. apply in_app_or in Hin as [Hin|Hin].
        - revert Hin. apply with_suffix_no_name; [|exact Hx].
          apply positions_nil. exact Hpl.
        - revert Hin. apply with_suffix_no_name; assumption. }
      cbv zeta. fold rcols. fold joined. split.
      * simpl. rewrite (range_index_map _ (fun cells => nth 0 cells Null))
          by reflexivity.
        rewrite map_map. reflexivity.
      * intros r Hin. simpl in Hin.
        apply range_index_In, in_map_iff in Hin as (j & E & Hj).
        exists j, [fst j]. split; [exact Hj|]. split; [|simpl; congruence].
        simpl. rewrite <- E. reflexivity.
    + exists KeyIndex, KeyIndex, KeyIndex.
      split; [reflexivity|].
      split; [reflexivity|].
      split.
      { apply resolve_key_index. simpl. rewrite Hcols.
        split; [exact Hpl|]. unfold is_level. simpl. apply String.eqb_refl. }
      cbv zeta. fold rcols. fold joined. split; [reflexivity|].
      intros r Hin. exists r, []. simpl in Hin. auto.
Qed.
End MergeLeft.

Lemma suffix_x_not_id (c : string) : c +:+ "_x" <> "id".
Proof. destruct c as [|a [|b c]]; simpl; intros H; inversion H. destruct c; discriminate. Qed.

Lemma suffix_y_not_id (c : string) : c +:+ "_y" <> "id".
Proof. destruct c as [|a [|b c]]; simpl; intros H; inversion H. destruct c; discriminate. Qed.

End MergeFacts.

(* ===================================================================== *)
(** * Reading, loading and saving                                         *)
(* ===================================================================== *)

Module IOFacts.
Import Pandas PandasFacts Merge MergeFacts.

Lemma name_fields_length (i : nat) (header : list string) :
  length (Csv.name_fields i header) = length header.
Proof.
  revert i. induction header as [|h header IH]; intros i; simpl; [reflexivity|].
  rewrite IH. reflexivity.
Qed.

Lemma mangle_at_length (st : list string * list (string * nat)) (i : nat) :
  length (fst (Csv.mangle_at st i)) = length (fst st).
Proof.
  unfold Csv.mangle_at.
  destruct (Csv.rename _ _ _ _ _ _) as [[col cur] counts]. simpl.
  apply length_insert.
Qed.

Lemma mangle_all_length (order : list nat) (st : list string * list (string * nat)) :
  length (fst (fold_left Csv.mangle_at order st)) = length (fst st).
Proof.
  revert st. induction order as [|i order IH]; intros st; [reflexivity|].
  simpl. rewrite IH. apply mangle_at_length.
Qed.

Lemma labels_length (header : list string) :
  length (Csv.labels header) = length header.
Proof.
  unfold Csv.labels. rewrite mangle_all_length. apply name_fields_length.
Qed.

Lemma infer_columns_width (width : nat) (records : list (list cell)) (r : list cell) :
  In r (Csv.infer_columns width records) -> length r = width.
Proof.
  unfold Csv.infer_columns. intros H. apply in_map_iff in H as (i & <- & _).
  rewrite !length_map. apply length_seq.
Qed.

Lemma parse_csv_wf (header : list string) (records : list (list cell)) (df : DataFrame) :
  parse_csv header records = OK df -> wf_frame df.
Proof.
  unfold parse_csv. pose proof (labels_length header) as Hlen.
  destruct header as [|h header]; [discriminate|].
  destruct (Csv.labels (h :: header)) as [|idx cols]; [discriminate|].
  set (recs := List.filter (fun r => negb (Csv.blank_line r)) records).
  set (width := Nat.max (length (h :: header)) (length (hd [] recs))).
  destruct (forallb _ recs); [|discriminate].
  assert (Hrows : forall n, (width - length (h :: header) = n)%nat ->
            forall r, In r (Csv.infer_columns width (map (Pandas.pad width) recs)) ->
                      length (tl r) = (length header + n)%nat).
  { intros n Hn r Hr. apply infer_columns_width in Hr.
    assert (length (h :: header) <= width)%nat by apply Nat.le_max_l.
    simpl in *. destruct r; simpl in *; lia. }
  destruct (width - length (h :: header))%nat as [|[|k]] eqn:Hk; [| |discriminate];
    intros H; injection H as <-; unfold wf_frame; simpl;
    apply Forall_map, Forall_forall; intros r Hr;
    apply list_elem_of_In in Hr; cbn [snd]; rewrite (Hrows _ eq_refl r Hr);
    simpl in *; lia.
Qed.

Lemma read_csv_world (path : string) (w : World) :
  snd (read_csv path w) = emit (FileRead path) w.
Proof.
  unfold read_csv. destruct (fs w !! path) as [[| |]|]; reflexivity.
Qed.

(** The result of reading depends on the files only. *)
Lemma read_csv_result (path : string) (w1 w2 : World) :
  fs w1 !! path = fs w2 !! path -> fst (read_csv path w1) = fst (read_csv path w2).
Proof.
  unfold read_csv. intros ->. destruct (fs w2 !! path) as [[| |]|]; reflexivity.
Qed.

Lemma read_csv_wf (path : string) (w : World) (df : DataFrame) :
  fst (read_csv path w) = OK df -> wf_frame df.
Proof.
  unfold read_csv. destruct (fs w !! path) as [[h recs| |]|]; simpl; try discriminate.
  apply parse_csv_wf.
Qed.


Lemma load_data_eq (mp cp : string) (w : World) :
  load_data mp cp w =
  match fst (read_csv mp w) with
  | Raise e => (Raise e, emit (FileRead mp) w)
  | OK messages =>
      match fst (read_csv cp w) with
      | Raise e => (Raise e, emit (FileRead cp) (emit (FileRead mp) w))
      | OK categories =>
          (merge_left "id" messages categories,
           emit (FileRead cp) (emit (FileRead mp) w))
      end
  end.
Proof.
  unfold load_data, mbind, IO_bind, io_bind.
  rewrite (surjective_pairing (read_csv mp w)), read_csv_world.
  destruct (fst (read_csv mp w)) as [messages|e]; [|reflexivity].
  rewrite (surjective_pairing (read_csv cp (emit (FileRead mp) w))), read_csv_world.
  rewrite (read_csv_result cp (emit (FileRead mp) w) w) by reflexivity.
  destruct (fst (read_csv cp w)) as [categories|e]; reflexivity.
Qed.

Lemma load_data_inv (mp cp : string) (w w' : World) (out : DataFrame) :
  load_data mp cp w = (OK out, w') ->
  exists msgs cats,
    fst (read_csv mp w) = OK msgs /\
    fst (read_csv cp w) = OK cats /\
    merge_left "id" msgs cats = OK out /\
    w' = emit (FileRead cp) (emit (FileRead mp) w).
Proof.
  rewrite load_data_eq.
  destruct (fst (read_csv mp w)) as [msgs|e]; [|discriminate].
  destruct (fst (read_csv cp w)) as [cats|e]; [|discriminate].
  intros H. injection H as H <-. eauto 6.
Qed.

Lemma occurrences_In (x : cell) (l : list cell) :
  In x l -> (0 < occurrences x l)%nat.
Proof.
  induction l as [|y l IH]; simpl; [tauto|].
  rewrite occurrences_cons. intros [->|Hin].
  - rewrite cell_eqb_refl. lia.
  - specialize (IH Hin). lia.
Qed.

Lemma ids_resolved (name : string) (df : DataFrame) (k : key_ref) :
  resolve_key name df = OK k -> ids name df = map (key_of k) (rows df).
Proof.
  intros H. unfold ids, id_of. rewrite H. reflexivity.
Qed.




Lemma save_data_eq (df : DataFrame) (p : string) (w : World) :
  save_data df p w =
  match Sql.create_engine ("sqlite:///" +:+ p) with
  | Raise x => (Raise x, w)
  | OK e => Sql.to_sql df p e w
  end.
Proof.
  unfold save_data, mbind, IO_bind, io_bind, lift.
  destruct (Sql.create_engine ("sqlite:///" +:+ p)); reflexivity.
Qed.





(** Opening the connection leaves the database that the engine sees as it
    is, and changes nothing when the file exists or the engine is
    transient. *)
Lemma open_fs (e : Sql.engine) (w : World) :
  fs (snd (Sql.open e w)) =
  match e with
  | Sql.InMemory => fs w
  | Sql.OnDisk path =>
      match fs w !! path with
      | None => <[path := SqliteFile []]> (fs w)
      | Some _ => fs w
      end
  end.
Proof.
  unfold Sql.open. destruct e as [|path]; [reflexivity|].
  destruct (fs w !! path); reflexivity.
Qed.


Lemma open_log (e : Sql.engine) (w : World) :
  exists evs, log (snd (Sql.open e w)) = log w ++ evs /\
              stages evs = [] /\ printed evs = [].
Proof.
  unfold Sql.open. destruct e as [|path].
  - exists []. simpl. rewrite app_nil_r. auto.
  - destruct (fs w !! path).
    + exists []. simpl. rewrite app_nil_r. auto.
    + exists [FileWrite path]. auto.
Qed.


(** The outcome of the Persister and the files it leaves depend on the
    files only. *)
Lemma to_sql_result (df : DataFrame) (name : string) (e : Sql.engine) (w1 w2 : World) :
  fs w1 = fs w2 ->
  fst (Sql.to_sql df name e w1) = fst (Sql.to_sql df name e w2) /\
  fs (snd (Sql.to_sql df name e w1)) = fs (snd (Sql.to_sql df name e w2)).
Proof.
  intros E. unfold Sql.to_sql, Sql.commit.
  pose proof (open_fs e w1) as H1. pose proof (open_fs e w2) as H2.
  rewrite E in H1. rewrite <- H2 in H1. rewrite E. clear H2.
  set (a := snd (Sql.open e w1)) in *. set (b := snd (Sql.open e w2)) in *.
  destruct (Sql.writable name df); simpl; [|auto].
  destruct (Sql.connect e (fs w2)) as [db|x]; [|auto].
  destruct (Sql.create_table db name df); [|auto].
  destruct e; simpl; [auto|]. rewrite H1. auto.
Qed.

Lemma load_data_world (mp cp : string) (w : World) :
  snd (load_data mp cp w) =
  match fst (read_csv mp w) with
  | Raise _ => emit (FileRead mp) w
  | OK _ => emit (FileRead cp) (emit (FileRead mp) w)
  end.
Proof.
  rewrite load_data_eq.
  destruct (fst (read_csv mp w)); [|reflexivity].
  destruct (fst (read_csv cp w)); reflexivity.
Qed.

Lemma load_data_fs (mp cp : string) (w : World) :
  fs (snd (load_data mp cp w)) = fs w.
Proof.
  rewrite load_data_world. destruct (fst (read_csv mp w)); reflexivity.
Qed.

Lemma load_data_result (mp cp : string) (w1 w2 : World) :
  fs w1 !! mp = fs w2 !! mp -> fs w1 !! cp = fs w2 !! cp ->
  fst (load_data mp cp w1) = fst (load_data mp cp w2).
Proof.
  intros Hm Hc. rewrite !load_data_eq.
  rewrite (read_csv_result mp w1 w2 Hm), (read_csv_result cp w1 w2 Hc).
  destruct (fst (read_csv mp w2)); [|reflexivity].
  destruct (fst (read_csv cp w2)); reflexivity.
Qed.

(** [main] with three positional arguments, stage by stage. *)
Lemma main_run (a0 m c d : string) (w : World) :
  main [a0; m; c; d] w =
  match load_data m c (at_loader m c w) with
  | (Raise e, w1) => (Raise e, w1)
  | (OK df, w1) =>
      match clean_data df with
      | Raise e => (Raise e, at_cleaner w1)
      | OK out =>
          match save_data out d (at_persister d (at_cleaner w1)) with
          | (Raise e, w2) => (Raise e, w2)
          | (OK _, w2) => (OK tt, emit (Stdout "Cleaned data saved to database!") w2)
          end
      end
  end.
Proof.
  unfold main, mbind, IO_bind, io_bind, print, invoke, lift.
  fold (loading_text m c). fold (saving_text d). fold (at_loader m c w).
  destruct (load_data m c (at_loader m c w)) as [[df|e] w1]; [|reflexivity].
  fold (at_cleaner w1).
  destruct (clean_data df) as [out|e]; [|reflexivity].
  fold (at_persister d (at_cleaner w1)).
  destruct (save_data out d (at_persister d (at_cleaner w1))) as [[[]|e] w2]; reflexivity.
Qed.

Lemma main_usage (argv : list string) (w : World) :
  length argv <> 4%nat -> main argv w = (OK tt, emit (Stdout usage) w).
Proof.
  intros H. destruct argv as [|a0 [|a1 [|a2 [|a3 [|a4 argv]]]]]; try reflexivity.
  simpl in H. congruence.
Qed.

(** The Persister logs file writes only, and the one file it can change is
    the file of its engine. *)
Lemma save_data_log (df : DataFrame) (p : string) (w : World) :
  exists evs, log (snd (save_data df p w)) = log w ++ evs /\
              stages evs = [] /\ printed evs = [].
Proof.
  rewrite save_data_eq.
  destruct (Sql.create_engine ("sqlite:///" +:+ p)) as [e|x];
    [|exists []; simpl; rewrite app_nil_r; auto].
  unfold Sql.to_sql, Sql.commit.
  destruct (open_log e w) as (evs & Hevs & Hst & Hpr).
  set (w0 := snd (Sql.open e w)) in *.
  destruct (Sql.writable p df); simpl; [|eauto].
  destruct (Sql.connect e (fs w)) as [db|x]; [|eauto].
  destruct (Sql.create_table db p df); [|eauto].
  destruct e as [|path]; [eauto|].
  exists (evs ++ [FileWrite path]). simpl. rewrite Hevs, <- app_assoc.
  split; [reflexivity|]. unfold stages, printed in *.
  rewrite !flat_map_app, Hst, Hpr. auto.
Qed.



(** The outcome of [save_data] and the files it leaves depend on the files
    only. *)
Lemma save_data_result (df : DataFrame) (p : string) (w1 w2 : World) :
  fs w1 = fs w2 ->
  fst (save_data df p w1) = fst (save_data df p w2) /\
  fs (snd (save_data df p w1)) = fs (snd (save_data df p w2)).
Proof.
  intros E. rewrite !save_data_eq.
  destruct (Sql.create_engine ("sqlite:///" +:+ p)) as [e|x]; [|auto].
  apply to_sql_result. exact E.
Qed.

End IOFacts.

(* ===================================================================== *)
(** * Properties of the Cleaner                                           *)
(* ===================================================================== *)

Import Pandas PandasFacts DecodeFacts CleanFacts.

Example clean_sample : clean_data sample_merged = OK sample_cleaned.
Proof. vm_compute. reflexivity. Qed.

(** C5. The record set returned by [clean_data] has no two rows with the same
    cells, and dropping duplicates from it again changes nothing. *)
Theorem cleaner_output_has_no_duplicates (df out : DataFrame) :
  clean_data df = OK out ->
  NoDup (map snd (rows out)) /\ drop_duplicates out = out.
Proof.
  intros H. apply clean_data_inv in H as (cats & d1 & d2 & d3 & _ & _ & _ & _ & ->).
  split.
  - apply drop_dups_NoDup.
  - apply drop_duplicates_idempotent.
Qed.

Lemma cleaner_output_has_no_duplicates_witness :
  NoDup (map snd (rows sample_cleaned)) /\ drop_duplicates sample_cleaned = sample_cleaned.
Proof.
  apply (cleaner_output_has_no_duplicates sample_merged sample_cleaned).
  vm_compute. reflexivity.
Defined.

(** C6. The record set returned by [clean_data] has no column labelled
    [child_alone] and none labelled [categories]; all the other columns of
    the input are there, in their order and with the cells of the row they
    come from, and the label columns follow them. *)
Theorem cleaner_drops_packed_and_child_alone (df out : DataFrame) :
  clean_data df = OK out ->
  ~ In "child_alone" (columns out) /\
  ~ In "categories" (columns out) /\
  exists names,
    category_colnames df = OK names /\
    columns out = List.filter kept (columns df) ++ List.filter kept names /\
    (wf_frame df ->
     forall r, In r (rows out) ->
       exists r0 labels,
         In r0 (rows df) /\ fst r = fst r0 /\
         snd r = keep_mask (map kept (columns df)) (snd r0) ++ labels).
Proof.
  intros H.
  destruct (clean_data_shape df out H) as (p & names & _ & Hnames & Hcols & Hrows).
  assert (Hkept : forall c l, In c (List.filter kept l) ->
                    c <> "categories" /\ c <> "child_alone").
  { intros c l Hin. apply filter_In in Hin as [_ Hk]. unfold kept, keeps in Hk.
    apply andb_true_iff in Hk as [H1 H2]. apply negb_true_iff in H1, H2.
    apply String.eqb_neq in H1, H2. auto. }
  split; [|split].
  - rewrite Hcols, <- List.filter_app. intros Hin. apply Hkept in Hin. tauto.
  - rewrite Hcols, <- List.filter_app. intros Hin. apply Hkept in Hin. tauto.
  - exists names. split; [exact Hnames|]. split; [exact Hcols|].
    intros Hwf r Hr.
    destruct (Hrows Hwf r Hr) as (ra & s & vals & Hra & Hfst & _ & _ & Hcells).
    eauto 6.
Qed.

Lemma cleaner_drops_packed_and_child_alone_witness :
  ~ In "child_alone" (columns sample_cleaned) /\
  ~ In "categories" (columns sample_cleaned) /\
  exists names,
    category_colnames sample_merged = OK names /\
    columns sample_cleaned
      = List.filter kept (columns sample_merged) ++ List.filter kept names /\
    forall r, In r (rows sample_cleaned) ->
      exists r0 labels,
        In r0 (rows sample_merged) /\ fst r = fst r0 /\
        snd r = keep_mask (map kept (columns sample_merged)) (snd r0) ++ labels.
Proof.
  destruct (cleaner_drops_packed_and_child_alone sample_merged sample_cleaned)
    as (H1 & H2 & names & Hn & Hc & Hr).
  - vm_compute. reflexivity.
  - split; [exact H1|]. split; [exact H2|].
    exists names. split; [exact Hn|]. split; [exact Hc|].
    apply Hr. repeat constructor.
Defined.

(** C9. When some row of the merged record set has a missing [categories]
    value, [clean_data] raises instead of returning a record set. *)
Theorem cleaner_raises_on_null_categories (df : DataFrame) :
  has_null_categories df -> exists e, clean_data df = Raise e.
Proof.
  intros (p & r & Hp & Hin & Hnull).
  destruct (clean_data df) as [out|e] eqn:H; [exfalso|eauto].
  apply clean_data_inv in H as (cats & _ & _ & _ & H & _).
  apply decode_categories_spec in H as (p' & Hp' & _ & _ & Hrows).
  rewrite Hp in Hp'. injection Hp' as <-.
  apply list_elem_of_In, list_elem_of_lookup in Hin as (i & Hi).
  destruct (Forall2_lookup_l _ _ _ _ _ Hrows Hi) as (r' & _ & _ & _ & s & Hs & _).
  congruence.
Qed.

Lemma cleaner_raises_on_null_categories_witness :
  has_null_categories sample_loaded /\ exists e, clean_data sample_loaded = Raise e.
Proof.
  assert (H : has_null_categories sample_loaded).
  { exists 2%nat, (Int 9, [Str "noise"; Str "news"; Null]).
    split; [reflexivity|]. split; [simpl; tauto|reflexivity]. }
  split; [exact H|]. apply (cleaner_raises_on_null_categories sample_loaded H).
Defined.

(** C4. In the frame built by lines 42 to 52, every row holds, for each token
    of its [categories] string, the last character of the token read as a
    decimal digit; whatever precedes that character has no influence, so of
    a value with several digits only the last one is kept. *)
Theorem decoded_value_is_last_character (df cats : DataFrame) :
  decode_categories df = OK cats ->
  (exists p, positions "categories" (columns df) = [p] /\
     Forall2 (fun r r' =>
                exists s, nth p (snd r) Null = Str s /\
                          Forall2 decoded_token (PyStr.split semicolon s) (snd r'))
             (rows df) (rows cats)) /\
  (forall (front : string) (d : ascii),
     PyStr.is_digit d = true ->
     decoded_token (front +:+ String d EmptyString) (Int (PyStr.digit_value d))).
Proof.
  intros H. split.
  - apply decode_categories_spec in H as (p & Hp & _ & _ & Hrows).
    exists p. split; [exact Hp|].
    eapply Forall2_impl; [exact Hrows|].
    intros r r' (_ & _ & Hs). exact Hs.
  - intros front d Hd. exists d. split; [|split]; auto.
    apply PyStrFacts.last_char_append.
Qed.

Example decode_dashed :
  decode_categories dashed_merged =
  OK {| index_name := None;
        columns := ["aid"; "child_alone"; "related"];
        rows := [ (Int 0, [Int 1; Int 0; Int 2]) ] |}.
Proof. vm_compute. reflexivity. Qed.

Lemma decoded_value_is_last_character_witness :
  (exists p, positions "categories" (columns dashed_merged) = [p] /\
     Forall2 (fun r r' =>
                exists s, nth p (snd r) Null = Str s /\
                          Forall2 decoded_token (PyStr.split semicolon s) (snd r'))
             (rows dashed_merged) [ (Int 0, [Int 1; Int 0; Int 2]) ]) /\
  (forall (front : string) (d : ascii),
     PyStr.is_digit d = true ->
     decoded_token (front +:+ String d EmptyString) (Int (PyStr.digit_value d))).
Proof.
  apply (decoded_value_is_last_character dashed_merged
           {| index_name := None;
              columns := ["aid"; "child_alone"; "related"];
              rows := [ (Int 0, [Int 1; Int 0; Int 2]) ] |}).
  vm_compute. reflexivity.
Defined.

(** C3 as stated fails: for the token [aid-related-1] the derived name is
    [aid], not the text before the last dash. *)
Lemma colnames_last_dash_counterexample :
  exists names,
    category_colnames dashed_merged = OK names /\
    names <> map name_before_last_dash
               (PyStr.split semicolon "aid-related-1;child_alone-0;related-12").
Proof.
  exists ["aid"; "child_alone"; "related"]. split.
  - vm_compute. reflexivity.
  - vm_compute. discriminate.
Qed.

(** C3, amended. The derived names are the texts before the first dash of the
    tokens of the first row's [categories] string; they are the name portions
    (the texts before the last dash) when no token has more than one dash. *)
Theorem colnames_before_first_dash (df : DataFrame) (names : list string) :
  category_colnames df = OK names ->
  exists p r0 rest s,
    positions "categories" (columns df) = [p] /\
    rows df = r0 :: rest /\
    nth p (snd r0) Null = Str s /\
    names = map name_before_first_dash (PyStr.split semicolon s) /\
    ((forall tok, In tok (PyStr.split semicolon s) -> (count_char dash tok <= 1)%nat) ->
     names = map name_before_last_dash (PyStr.split semicolon s)).
Proof.
  intros H. apply category_colnames_spec in H as (p & r0 & rest & s & Hp & Hr & Hs & ->).
  exists p, r0, rest, s. repeat split; try assumption.
  intros Hdash. apply map_ext_in. intros tok Hin.
  apply first_dash_is_last_dash, Hdash, Hin.
Qed.

Lemma colnames_before_first_dash_witness :
  exists p r0 rest s,
    positions "categories" (columns sample_merged) = [p] /\
    rows sample_merged = r0 :: rest /\
    nth p (snd r0) Null = Str s /\
    ["related"; "offer"; "child_alone"; "request"]
      = map name_before_first_dash (PyStr.split semicolon s) /\
    ((forall tok, In tok (PyStr.split semicolon s) -> (count_char dash tok <= 1)%nat) ->
     ["related"; "offer"; "child_alone"; "request"]
       = map name_before_last_dash (PyStr.split semicolon s)).
Proof.
  apply (colnames_before_first_dash sample_merged).
  vm_compute. reflexivity.
Defined.

(** C2. The code does not keep [related] within 0 and 1, as its comment on
    line 49 and its docstring announce: a record labelled [related-3] is
    accepted, passes the filter of line 60 and comes out with the value 3. *)
Lemma cleaner_keeps_related_three :
  exists out r,
    clean_data related3_merged = OK out /\
    In r (rows out) /\
    value_of "related" out r = Some (Int 3) /\
    value_of "related" out r <> Some (Int 0) /\
    value_of "related" out r <> Some (Int 1).
Proof.
  exists {| index_name := None; columns := ["id"; "related"];
            rows := [ (Int 0, [Int 7; Int 3]) ] |}, (Int 0, [Int 7; Int 3]).
  split; [vm_compute; reflexivity|].
  split; [left; reflexivity|].
  split; [reflexivity|]. split; discriminate.
Qed.

(** X18. Every row returned by [clean_data] has a [related] value, and that
    value is not 2 (the filter of line 60); when [related] is one of the
    decoded labels (the input has no column of that name) it is a decimal
    digit. *)
Theorem cleaner_related_is_not_two (df out : DataFrame) (r : cell * list cell) :
  wf_frame df ->
  clean_data df = OK out ->
  In r (rows out) ->
  exists c, value_of "related" out r = Some c /\
            c <> Int 2 /\
            (~ In "related" (columns df) -> exists n, c = Int n /\ 0 <= n <= 9).
Proof.
  intros Hwf H Hr.
  apply clean_data_inv in H as (cats & d1 & d2 & d3 & H0 & H1 & H2 & H3 & ->).
  apply decode_categories_spec in H0 as (p & Hp & _ & _ & Hrows).
  assert (Hwf2 : wf_frame d2).
  { apply (drop_wf _ _ _ H2), (drop_wf _ _ _ H1), concat_wf; [exact Hwf|].
    eapply Forall2_impl; [exact Hrows|]. intros ? ? (_ & Hlen & _). exact Hlen. }
  apply filter_ne_spec in H3 as (q & Hq & _ & C3 & R3).
  simpl in Hr. apply drop_dups_In in Hr as [Hr _].
  rewrite R3 in Hr. apply filter_In in Hr as [Hr Hne].
  pose proof (positions_nth "related" (columns d2) q) as Hlabel.
  rewrite Hq in Hlabel. specialize (Hlabel (or_introl eq_refl)).
  assert (Hlt : (q < length (snd r))%nat).
  { unfold wf_frame in Hwf2. rewrite Forall_forall in Hwf2.
    rewrite (Hwf2 r) by (apply list_elem_of_In; exact Hr).
    apply nth_error_Some. congruence. }
  exists (nth q (snd r) Null).
  assert (Hcell : nth_error (snd r) q = Some (nth q (snd r) Null)).
  { apply nth_error_nth'. exact Hlt. }
  split; [|split].
  - unfold value_of. simpl. rewrite C3, Hq. exact Hcell.
  - intros E. rewrite E in Hne. discriminate.
  - intros Hnot.
    pose proof (nth_error_combine_In _ _ _ _ _ Hlabel Hcell) as Hpair.
    destruct (drop_pairs _ _ _ _ _ _ H2 Hr Hpair) as (r1 & Hr1 & _ & Hpair1).
    destruct (drop_pairs _ _ _ _ _ _ H1 Hr1 Hpair1) as (r0 & Hr0 & _ & Hpair0).
    simpl in Hr0, Hpair0.
    destruct (zip_rows_In _ _ _ _ Hrows Hr0) as (ra & rb & Hra & Hab & ->).
    destruct Hab as (_ & _ & s & _ & Hdec).
    simpl in Hpair0. rewrite combine_app_same in Hpair0.
    + apply in_app_or in Hpair0 as [Hin|Hin].
      * exfalso. apply Hnot. eapply in_combine_l. exact Hin.
      * apply in_combine_r in Hin. eapply decoded_row_digit; eassumption.
    + unfold wf_frame in Hwf. rewrite Forall_forall in Hwf.
      symmetry. apply Hwf. apply list_elem_of_In. exact Hra.
Qed.

Lemma cleaner_related_is_not_two_witness :
  exists c, value_of "related" sample_cleaned (Int 1, [Int 8; Str "water"; Int 1; Int 1; Int 0])
            = Some c /\
            c <> Int 2 /\
            (~ In "related" (columns sample_merged) -> exists n, c = Int n /\ 0 <= n <= 9).
Proof.
  apply (cleaner_related_is_not_two sample_merged sample_cleaned).
  - repeat constructor.
  - vm_compute. reflexivity.
  - simpl. tauto.
Defined.

(* ===================================================================== *)
(** * Properties of the Loader                                            *)
(* ===================================================================== *)

Import Merge MergeFacts IOFacts.

Example load_sample :
  fst (load_data "messages.csv" "categories.csv" sample_world) = OK sample_loaded.
Proof. vm_compute. reflexivity. Qed.

(** A record shorter than the header is filled up with missing values, and
    a header label met before is renamed. *)
Example read_short_record :
  parse_csv ["id"; "message"; "message"] [ [Int 1; Str "a"]; [Int 2; Str "b"; Str "c"] ]
  = OK {| index_name := Some "id";
          columns := ["message"; "message.1"];
          rows := [ (Int 1, [Str "a"; Null]); (Int 2, [Str "b"; Str "c"]) ] |}.
Proof. vm_compute. reflexivity. Qed.

(** C1 as stated fails in two ways.  Message 8 has two category records,
    and appears twice in what [load_data] returns.  And the message whose id
    is 2^53 + 1, an id that no category record carries, gets the categories
    of the record whose id is 2^53 instead of missing values: one of the
    category ids is blank, so the ids are compared as 64-bit floats. *)
Lemma loader_exactly_once_counterexample :
  (exists msgs out,
     fst (read_csv "messages.csv" sample_world) = OK msgs /\
     fst (load_data "messages.csv" "categories.csv" sample_world) = OK out /\
     occurrences (Int 8) (ids "id" msgs) = 1%nat /\
     occurrences (Int 8) (ids "id" out) = 2%nat) /\
  (exists msgs cats out,
     fst (read_csv "messages.csv" wide_ids_world) = OK msgs /\
     fst (read_csv "categories.csv" wide_ids_world) = OK cats /\
     fst (load_data "messages.csv" "categories.csv" wide_ids_world) = OK out /\
     ids "id" msgs = [Int (2 ^ 53 + 1)] /\
     occurrences (Int (2 ^ 53 + 1)) (ids "id" cats) = 0%nat /\
     rows out = [(Int (2 ^ 53 + 1), [Str "help"; Str "related-1;child_alone-0"])]).
Proof.
  split.
  - eexists. eexists. split; [vm_compute; reflexivity|].
    split; [vm_compute; reflexivity|].
    split; vm_compute; reflexivity.
  - eexists. eexists. eexists. split; [vm_compute; reflexivity|].
    split; [vm_compute; reflexivity|].
    split; [vm_compute; reflexivity|].
    split; [reflexivity|]. split; reflexivity.
Qed.

(** C1, amended. When every id of the two inputs is text, missing, or an
    integer of magnitude at most 2^53 (which a 64-bit float holds exactly):
    in what [load_data] returns, an id occurs as many times as it occurs in
    the Messages input, times the number of Category records that carry it
    (times one when there is none); so an id that occurs once in Messages
    and at most once in Categories occurs exactly once.  A row whose id has
    no Category record has missing values in all the category fields. *)
Theorem loader_left_join_multiplicity (mp cp : string) (w w' : World)
    (msgs cats out : DataFrame) :
  fst (read_csv mp w) = OK msgs ->
  fst (read_csv cp w) = OK cats ->
  load_data mp cp w = (OK out, w') ->
  Forall (fun c => Dtype.exact c = true) (ids "id" msgs) ->
  Forall (fun c => Dtype.exact c = true) (ids "id" cats) ->
  (forall i, occurrences i (ids "id" out) =
             (occurrences i (ids "id" msgs)
              * Nat.max 1 (occurrences i (ids "id" cats)))%nat) /\
  (forall i, occurrences i (ids "id" msgs) = 1%nat ->
             (occurrences i (ids "id" cats) <= 1)%nat ->
             occurrences i (ids "id" out) = 1%nat) /\
  (forall r, In r (rows out) ->
             occurrences (id_of "id" out r) (ids "id" cats) = 0%nat ->
             exists front, snd r = front ++ repeat Null (right_width "id" cats)).
Proof.
  intros Hm Hc H Hexm Hexc.
  apply load_data_inv in H as (msgs' & cats' & Hm' & Hc' & Hmerge & _).
  rewrite Hm in Hm'. rewrite Hc in Hc'. injection Hm' as <-. injection Hc' as <-.
  destruct (merge_left_spec "id" msgs cats out suffix_x_not_id suffix_y_not_id
              (read_csv_wf _ _ _ Hm) Hexm Hexc Hmerge)
    as (kl & kr & ko & Hkl & Hkr & Hko & Hkeys & Hrows).
  assert (Hcount : forall i, occurrences i (ids "id" out) =
               (occurrences i (ids "id" msgs)
                * Nat.max 1 (occurrences i (ids "id" cats)))%nat).
  { intros i. rewrite (ids_resolved _ _ _ Hko), (ids_resolved _ _ _ Hkl),
      (ids_resolved _ _ _ Hkr), Hkeys.
    apply join_rows_count. }
  split; [exact Hcount|]. split.
  - intros i H1 H2. rewrite Hcount, H1. lia.
  - intros r Hin Hnone.
    destruct (Hrows r Hin) as (j & front & Hj & Hkey & Hcells).
    unfold id_of in Hnone. rewrite Hko, Hkey, (ids_resolved _ _ _ Hkr) in Hnone.
    unfold right_width. rewrite Hkr.
    apply join_rows_In in Hj as (l & _ & _ & [[_ Hnull]|(r' & Hr' & E & _)]).
    + exists (front ++ snd l). rewrite Hcells, Hnull, app_assoc. reflexivity.
    + exfalso. assert (Hpos : (0 < occurrences (fst j) (map (key_of kr) (rows cats)))%nat).
      { apply occurrences_In. rewrite <- E. apply in_map. exact Hr'. }
      lia.
Qed.

Lemma loader_left_join_multiplicity_witness :
  (forall i, occurrences i (ids "id" sample_loaded) =
             (occurrences i (ids "id" sample_messages)
              * Nat.max 1 (occurrences i (ids "id" sample_categories)))%nat) /\
  (forall i, occurrences i (ids "id" sample_messages) = 1%nat ->
             (occurrences i (ids "id" sample_categories) <= 1)%nat ->
             occurrences i (ids "id" sample_loaded) = 1%nat) /\
  (forall r, In r (rows sample_loaded) ->
             occurrences (id_of "id" sample_loaded r) (ids "id" sample_categories) = 0%nat ->
             exists front,
               snd r = front ++ repeat Null (right_width "id" sample_categories)).
Proof.
  apply (loader_left_join_multiplicity "messages.csv" "categories.csv" sample_world
           (emit (FileRead "categories.csv") (emit (FileRead "messages.csv") sample_world))).
  - vm_compute. reflexivity.
  - vm_compute. reflexivity.
  - vm_compute. reflexivity.
  - repeat constructor.
  - repeat constructor.
Defined.

(* ===================================================================== *)
(** * Properties of the Persister and of the entry point                  *)
(* ===================================================================== *)

(** In this model of the store, where a write cannot fail for lack of space
    or permission, [save_data] returns as soon as the table can be made of
    the record set and the database it connects to has no table named like
    the destination. *)
Lemma save_data_returns (df : DataFrame) (p : string) (e : Sql.engine) (w : World)
    (db : list (string * SqlTable)) :
  Sql.create_engine ("sqlite:///" +:+ p) = OK e ->
  Sql.connect e (fs w) = OK db ->
  Sql.writable p df = true ->
  Sql.has_table db p = false ->
  Sql.creatable (columns df) = true ->
  exists w', save_data df p w = (OK tt, w').
Proof.
  intros He Hc Hw Ht Hcr. rewrite save_data_eq, He.
  unfold Sql.to_sql, Sql.create_table, Sql.commit. rewrite Hc, Hw, Ht, Hcr. simpl.
  destruct e; eauto.
Qed.

(** A save that fails on a free path leaves the empty database file that
    the connection created: here an integer does not fit 64 signed bits. *)
Example failed_save_leaves_empty_file :
  save_data {| index_name := None; columns := ["n"]; rows := [ (Int 0, [Int (2 ^ 63)]) ] |}
            "new.db" sample_world
  = (Raise ValueError,
     {| fs := <["new.db" := SqliteFile []]> (fs sample_world);
        log := [FileWrite "new.db"] |}).
Proof. vm_compute. reflexivity. Qed.






(** C7. With a number of positional arguments other than 3, [main] prints
    the usage text and does nothing else: no stage is invoked and no file is
    read or written.  With exactly 3, it runs the Loader on the two input
    paths, then the Cleaner on what the Loader returned, then the Persister
    on what the Cleaner returned and the destination, in that order: a stage
    that raises ends the run with its exception and the files as they were,
    and otherwise the run ends as [save_data] does on the cleaned record
    set, with the files that [save_data] leaves. *)
Theorem main_checks_argument_count (argv : list string) (w : World) :
  (length (tl argv) <> 3%nat ->
   exists w', main argv w = (OK tt, w') /\
              fs w' = fs w /\
              log w' = log w ++ [Stdout usage]) /\
  (length (tl argv) = 3%nat ->
   exists a0 m c d evs,
     argv = [a0; m; c; d] /\
     log (snd (main argv w)) = log w ++ evs /\
     match fst (load_data m c w) with
     | Raise e =>
         fst (main argv w) = Raise e /\
         fs (snd (main argv w)) = fs w /\
         stages evs = [Loader]
     | OK df =>
         match clean_data df with
         | Raise e =>
             fst (main argv w) = Raise e /\
             fs (snd (main argv w)) = fs w /\
             stages evs = [Loader; Cleaner]
         | OK out =>
             fst (main argv w) = fst (save_data out d w) /\
             fs (snd (main argv w)) = fs (snd (save_data out d w)) /\
             stages evs = [Loader; Cleaner; Persister]
         end
     end).
Proof.
  split.
  - intros H. exists (emit (Stdout usage) w). split; [|split; reflexivity].
    apply main_usage. destruct argv; simpl in *; lia.
  - intros H.
    destruct argv as [|a0 [|m [|c [|d [|x argv]]]]]; simpl in H; try discriminate.
    exists a0, m, c, d. rewrite main_run.
    rewrite (load_data_result m c w (at_loader m c w)) by reflexivity.
    destruct (load_data m c (at_loader m c w)) as [r wl] eqn:Hload.
    pose proof (load_data_world m c (at_loader m c w)) as Hwl.
    pose proof (load_data_fs m c (at_loader m c w)) as Hfl.
    rewrite Hload in Hwl, Hfl. simpl in Hwl, Hfl. simpl.
    destruct r as [df|e].
    + assert (Hlog : log wl = log w ++ [Stdout (loading_text m c); Invoke Loader;
                                        FileRead m; FileRead c]).
      { apply load_data_inv in Hload as (_ & _ & _ & _ & _ & ->).
        unfold at_loader, emit. simpl. rewrite <- !app_assoc. reflexivity. }
      destruct (clean_data df) as [out|e].
      * destruct (save_data_log out d (at_persister d (at_cleaner wl)))
          as (evs & Hevs & Hst & _).
        destruct (save_data_result out d (at_persister d (at_cleaner wl)) w Hfl)
          as [Hres Hfs].
        exists ([Stdout (loading_text m c); Invoke Loader; FileRead m; FileRead c;
                 Stdout "Cleaning data..."; Invoke Cleaner;
                 Stdout (saving_text d); Invoke Persister] ++ evs
                ++ match fst (save_data out d (at_persister d (at_cleaner wl))) with
                   | OK _ => [Stdout "Cleaned data saved to database!"]
                   | Raise _ => []
                   end).
        split; [reflexivity|]. split; [|split; [|split]].
        -- destruct (save_data out d (at_persister d (at_cleaner wl)))
             as [[[]|e] ws]; simpl in *; rewrite Hevs, Hlog;
             rewrite <- ?app_assoc; simpl; rewrite ?app_nil_r; reflexivity.
        -- rewrite <- Hres.
           destruct (save_data out d (at_persister d (at_cleaner wl)))
             as [[[]|e] ws]; reflexivity.
        -- rewrite <- Hfs.
           destruct (save_data out d (at_persister d (at_cleaner wl)))
             as [[[]|e] ws]; reflexivity.
        -- unfold stages in *. rewrite !flat_map_app, Hst.
           destruct (fst (save_data out d (at_persister d (at_cleaner wl))));
             reflexivity.
      * exists [Stdout (loading_text m c); Invoke Loader; FileRead m; FileRead c;
                Stdout "Cleaning data..."; Invoke Cleaner].
        split; [reflexivity|]. split; [|auto].
        simpl. rewrite Hlog, <- !app_assoc. reflexivity.
    + destruct (fst (read_csv m (at_loader m c w))) eqn:Hm.
      * exists [Stdout (loading_text m c); Invoke Loader; FileRead m; FileRead c].
        split; [reflexivity|]. split; [|auto].
        rewrite Hwl. simpl. rewrite <- !app_assoc. reflexivity.
      * exists [Stdout (loading_text m c); Invoke Loader; FileRead m].
        split; [reflexivity|]. split; [|auto].
        rewrite Hwl. simpl. rewrite <- !app_assoc. reflexivity.
Qed.

Lemma main_checks_argument_count_witness :
  (exists w', main ["prog"; "messages.csv"; "full.csv"] stocked_world = (OK tt, w') /\
              fs w' = fs stocked_world /\
              log w' = log stocked_world ++ [Stdout usage]) /\
  (exists a0 m c d evs,
     ["prog"; "messages.csv"; "full.csv"; "out.db"] = [a0; m; c; d] /\
     log (snd (main ["prog"; "messages.csv"; "full.csv"; "out.db"] stocked_world))
       = log stocked_world ++ evs /\
     match fst (load_data m c stocked_world) with
     | Raise e =>
         fst (main ["prog"; "messages.csv"; "full.csv"; "out.db"] stocked_world) = Raise e /\
         fs (snd (main ["prog"; "messages.csv"; "full.csv"; "out.db"] stocked_world))
         = fs stocked_world /\
         stages evs = [Loader]
     | OK df =>
         match clean_data df with
         | Raise e =>
             fst (main ["prog"; "messages.csv"; "full.csv"; "out.db"] stocked_world)
             = Raise e /\
             fs (snd (main ["prog"; "messages.csv"; "full.csv"; "out.db"] stocked_world))
             = fs stocked_world /\
             stages evs = [Loader; Cleaner]
         | OK out =>
             fst (main ["prog"; "messages.csv"; "full.csv"; "out.db"] stocked_world)
             = fst (save_data out d stocked_world) /\
             fs (snd (main ["prog"; "messages.csv"; "full.csv"; "out.db"] stocked_world))
             = fs (snd (save_data out d stocked_world)) /\
             stages evs = [Loader; Cleaner; Persister]
         end
     end).
Proof.
  split.
  - apply (proj1 (main_checks_argument_count ["prog"; "messages.csv"; "full.csv"]
                    stocked_world)).
    simpl. lia.
  - apply (proj2 (main_checks_argument_count
                    ["prog"; "messages.csv"; "full.csv"; "out.db"] stocked_world)).
    reflexivity.
Defined.

(* ===================================================================== *)
(** * More about the Cleaner: what it accepts and what it returns         *)
(* ===================================================================== *)

Module CleanMore.
Import Pandas PandasFacts DecodeFacts CleanFacts.

Lemma decoded_token_functional (tok : string) (v v' : cell) :
  decoded_token tok v -> decoded_token tok v' -> v = v'.
Proof.
  intros (d & Hd & _ & ->) (d' & Hd' & _ & ->). congruence.
Qed.

Lemma decoded_tokens_functional (toks : list string) (vals vals' : list cell) :
  Forall2 decoded_token toks vals -> Forall2 decoded_token toks vals' -> vals = vals'.
Proof.
  intros H. revert vals'. induction H as [|tok v toks vals Hv _ IH]; intros vals' H';
    inversion H'; subst; [reflexivity|].
  f_equal; [eapply decoded_token_functional; eassumption|auto].
Qed.

Lemma zip_rows_In_left (a b : list (cell * list cell)) (ra : cell * list cell)
    (R : cell * list cell -> cell * list cell -> Prop) :
  Forall2 R a b -> In ra a ->
  exists rb, R ra rb /\ In (fst ra, snd ra ++ snd rb) (zip_rows a b).
Proof.
  intros H. induction H as [|x y a b Hxy _ IH]; simpl; [tauto|].
  intros [->|Hin].
  - exists y. auto.
  - destruct (IH Hin) as (rb & HR & Hz). exists rb. auto.
Qed.

Lemma zip_rows_fst (a b : list (cell * list cell))
    (R : cell * list cell -> cell * list cell -> Prop) :
  Forall2 R a b -> map fst (zip_rows a b) = map fst a.
Proof.
  intros H. induction H; simpl; congruence.
Qed.

(** Every row is represented among the rows that [drop_duplicates] keeps. *)
Lemma drop_dups_complete (seen : list (list cell)) (rs : list (cell * list cell))
    (x : cell * list cell) :
  In x rs -> In (snd x) seen \/ In (snd x) (map snd (drop_dups seen rs)).
Proof.
  revert seen. induction rs as [|y rs IH]; intros seen; simpl; [tauto|].
  intros [->|Hin].
  - destruct (existsb (cells_eqb (snd x)) seen) eqn:Hex.
    + left. apply existsb_exists in Hex as (c & Hc & E).
      apply cells_eqb_eq in E. congruence.
    + right. left. reflexivity.
  - destruct (existsb (cells_eqb (snd y)) seen).
    + apply IH, Hin.
    + destruct (IH (snd y :: seen) Hin) as [[E|H]|H]; simpl; auto.
Qed.

Lemma drop_dups_sublist (seen : list (list cell)) (rs : list (cell * list cell)) :
  sublist (drop_dups seen rs) rs.
Proof.
  revert seen. induction rs as [|y rs IH]; intros seen; simpl; [constructor|].
  destruct (existsb (cells_eqb (snd y)) seen).
  - apply sublist_cons, IH.
  - apply sublist_skip, IH.
Qed.

Lemma filter_sublist {A : Type} (f : A -> bool) (l : list A) :
  sublist (List.filter f l) l.
Proof.
  induction l as [|x l IH]; simpl; [constructor|].
  destruct (f x); [apply sublist_skip|apply sublist_cons]; exact IH.
Qed.

Lemma map_sublist {A B : Type} (f : A -> B) (l1 l2 : list A) :
  sublist l1 l2 -> sublist (map f l1) (map f l2).
Proof.
  intros H. induction H; simpl; [constructor|apply sublist_skip|apply sublist_cons];
    assumption.
Qed.

(** [clean_data], written out on the rows. *)
Lemma clean_data_structure (df out : DataFrame) :
  clean_data df = OK out ->
  exists cats q,
    decode_categories df = OK cats /\
    positions "related" (columns out) = [q] /\
    columns out = List.filter kept (columns df ++ columns cats) /\
    rows out =
    drop_dups []
      (List.filter (fun r => negb (cell_eqb (nth q (snd r) Null) (Int 2)))
         (map (fun x => (fst x, keep_mask (map kept (columns df ++ columns cats)) (snd x)))
            (zip_rows (rows df) (rows cats)))).
Proof.
  intros H.
  apply clean_data_inv in H as (cats & d1 & d2 & d3 & H0 & H1 & H2 & H3 & ->).
  apply drop_spec in H1 as (_ & _ & C1 & R1).
  apply drop_spec in H2 as (_ & _ & C2 & R2).
  apply filter_ne_spec in H3 as (q & Hq & _ & C3 & R3).
  simpl in C1, R1.
  assert (Hfilter : forall l, List.filter (keeps "child_alone")
                                (List.filter (keeps "categories") l)
                              = List.filter kept l).
  { induction l as [|c l IH]; simpl; [reflexivity|]. unfold kept at 1.
    destruct (keeps "categories" c); simpl; rewrite IH; reflexivity. }
  exists cats, q. split; [exact H0|]. simpl. rewrite C3. split; [exact Hq|].
  split; [rewrite C2, C1; apply Hfilter|].
  rewrite R3, R2, R1, C1, map_map. simpl. f_equal. f_equal.
  apply map_ext. intros x. rewrite keep_mask_twice. reflexivity.
Qed.

Lemma cleaned_cells_zip (df : DataFrame) (names : list string)
    (r : cell * list cell) (vals : list cell) :
  length (snd r) = length (columns df) ->
  keep_mask (map kept (columns df ++ names)) (snd r ++ vals)
  = cleaned_cells df names r vals.
Proof.
  intros Hlen. unfold cleaned_cells. rewrite map_app.
  apply keep_mask_app. rewrite length_map. congruence.
Qed.

End CleanMore.

Import CleanMore.

(** X1. Without a column labelled [categories] the Cleaner raises
    [KeyError] (line 42). *)
Theorem cleaner_needs_categories_column (df : DataFrame) :
  ~ In "categories" (columns df) -> clean_data df = Raise KeyError.
Proof.
  intros H. apply positions_nil in H.
  unfold clean_data, decode_categories, split_categories, getitem.
  rewrite H. reflexivity.
Qed.

Lemma cleaner_needs_categories_column_witness :
  ~ In "categories" (columns sample_cleaned) /\ clean_data sample_cleaned = Raise KeyError.
Proof.
  assert (H : ~ In "categories" (columns sample_cleaned)).
  { simpl. intros [E|[E|[E|[E|[E|[]]]]]]; discriminate. }
  split; [exact H|]. apply (cleaner_needs_categories_column sample_cleaned H).
Defined.

(** X2. On a record set without rows the Cleaner raises: there is no first
    row to take the label names from (line 45). *)
Theorem cleaner_rejects_empty_record_set (df : DataFrame) :
  rows df = [] -> exists e, clean_data df = Raise e.
Proof.
  intros Hrows.
  destruct (clean_data df) as [out|e] eqn:H; [exfalso|eauto].
  apply clean_data_inv in H as (cats & _ & _ & _ & H & _).
  apply decode_categories_spec in H as (_ & _ & H & _).
  apply category_colnames_spec in H as (_ & r0 & rest & _ & _ & E & _).
  congruence.
Qed.

Lemma cleaner_rejects_empty_record_set_witness :
  exists e, clean_data empty_merged = Raise e.
Proof.
  apply (cleaner_rejects_empty_record_set empty_merged). reflexivity.
Defined.

(** X3. When the labels decode but neither the merged record set nor the
    derived names have a column [child_alone], the Cleaner raises [KeyError]
    (line 59); the same holds for [related] (line 60). *)
Theorem cleaner_needs_child_alone_and_related (df cats : DataFrame) (label : string) :
  decode_categories df = OK cats ->
  label = "child_alone" \/ label = "related" ->
  ~ In label (columns df) ->
  ~ In label (columns cats) ->
  clean_data df = Raise KeyError.
Proof.
  intros Hdec Hlabel Hdf Hcats.
  assert (Hnone : forall l, (forall c, In c l -> In c (columns df ++ columns cats)) ->
                            positions label l = []).
  { intros l Hl. apply positions_nil. intros Hin. apply Hl, in_app_or in Hin. tauto. }
  unfold clean_data. rewrite Hdec. simpl.
  destruct (drop "categories" (concat_axis1 df cats)) as [d1|e] eqn:H1.
  - pose proof H1 as S1. apply drop_spec in S1 as (_ & _ & C1 & _). simpl in C1.
    assert (Hsub1 : forall c, In c (columns d1) -> In c (columns df ++ columns cats)).
    { intros c Hc. rewrite C1 in Hc. apply filter_In in Hc. tauto. }
    simpl. destruct (drop "child_alone" d1) as [d2|e] eqn:H2.
    + pose proof H2 as S2. apply drop_spec in S2 as (Hin & _ & C2 & _).
      destruct Hlabel as [->| ->].
      * exfalso. apply Hsub1, in_app_or in Hin. tauto.
      * simpl. unfold filter_ne, getitem. rewrite Hnone; [reflexivity|].
        intros c Hc. rewrite C2 in Hc. apply filter_In in Hc. apply Hsub1. tauto.
    + simpl. unfold drop in H2.
      destruct (positions "child_alone" (columns d1)); [congruence|discriminate].
  - simpl. unfold drop in H1.
    destruct (positions "categories" (columns (concat_axis1 df cats)));
      [congruence|discriminate].
Qed.

Lemma cleaner_needs_child_alone_and_related_witness :
  clean_data no_child_alone_merged = Raise KeyError.
Proof.
  apply (cleaner_needs_child_alone_and_related no_child_alone_merged
           {| index_name := None;
              columns := ["related"; "offer"; "request"];
              rows := [ (Int 0, [Int 1; Int 0; Int 1]); (Int 1, [Int 1; Int 1; Int 0]) ] |}
           "child_alone").
  - vm_compute. reflexivity.
  - left. reflexivity.
  - simpl. intros [E|[E|[]]]; discriminate.
  - simpl. intros [E|[E|[E|[]]]]; discriminate.
Defined.

(** X4. Two rows whose [categories] strings do not have the same number of
    tokens make the Cleaner raise: the token count is not merely assumed
    constant, a shorter or longer row is refused (lines 42 to 52). *)
Theorem cleaner_rejects_ragged_categories (df : DataFrame) (p : nat)
    (r1 r2 : cell * list cell) (s1 s2 : string) :
  positions "categories" (columns df) = [p] ->
  In r1 (rows df) -> In r2 (rows df) ->
  nth p (snd r1) Null = Str s1 ->
  nth p (snd r2) Null = Str s2 ->
  length (PyStr.split semicolon s1) <> length (PyStr.split semicolon s2) ->
  exists e, clean_data df = Raise e.
Proof.
  intros Hp H1 H2 Hs1 Hs2 Hne.
  destruct (clean_data df) as [out|e] eqn:H; [exfalso|eauto].
  apply clean_data_inv in H as (cats & _ & _ & _ & H & _).
  apply decode_categories_spec in H as (p' & Hp' & _ & _ & Hrows).
  rewrite Hp in Hp'. injection Hp' as <-.
  assert (Hcount : forall r s, In r (rows df) -> nth p (snd r) Null = Str s ->
                     length (PyStr.split semicolon s) = length (columns cats)).
  { intros r s Hin Hs.
    apply list_elem_of_In, list_elem_of_lookup in Hin as (i & Hi).
    destruct (Forall2_lookup_l _ _ _ _ _ Hrows Hi) as (r' & _ & _ & Hlen & s' & Hs' & Hdec).
    rewrite Hs in Hs'. injection Hs' as <-.
    rewrite <- Hlen. eapply Forall2_length. exact Hdec. }
  apply Hne. rewrite (Hcount r1 s1 H1 Hs1), (Hcount r2 s2 H2 Hs2). reflexivity.
Qed.

Lemma cleaner_rejects_ragged_categories_witness :
  exists e, clean_data ragged_merged = Raise e.
Proof.
  apply (cleaner_rejects_ragged_categories ragged_merged 1
           (Int 0, [Int 7; Str "related-1;offer-0;child_alone-0"])
           (Int 1, [Int 8; Str "related-1;child_alone-0"])
           "related-1;offer-0;child_alone-0" "related-1;child_alone-0").
  - reflexivity.
  - left. reflexivity.
  - right. left. reflexivity.
  - reflexivity.
  - reflexivity.
  - vm_compute. discriminate.
Defined.

(** X5. In every row that the Cleaner returns, the cells of the label
    columns (those after the kept columns of the input) are integers between
    0 and 9: the label columns are numeric and nothing else. *)
Theorem cleaner_label_cells_are_digits (df out : DataFrame) (r : cell * list cell) :
  wf_frame df ->
  clean_data df = OK out ->
  In r (rows out) ->
  exists orig labels,
    snd r = orig ++ labels /\
    length orig = length (List.filter kept (columns df)) /\
    Forall (fun c => exists n, c = Int n /\ 0 <= n <= 9) labels.
Proof.
  intros Hwf H Hr.
  destruct (clean_data_shape df out H) as (p & names & _ & _ & _ & Hrows).
  destruct (Hrows Hwf r Hr) as (ra & s & vals & Hra & _ & _ & Hdec & ->).
  eexists. eexists. split; [reflexivity|]. split.
  - rewrite <- (keep_mask_filter kept). apply keep_mask_length.
    unfold wf_frame in Hwf. rewrite Forall_forall in Hwf.
    apply Hwf, list_elem_of_In, Hra.
  - apply Forall_forall. intros c Hc.
    apply list_elem_of_In, keep_mask_In in Hc.
    eapply decoded_row_digit; eassumption.
Qed.

Lemma cleaner_label_cells_are_digits_witness :
  exists orig labels,
    [Int 8; Str "water"; Int 1; Int 1; Int 0] = orig ++ labels /\
    length orig = length (List.filter kept (columns sample_merged)) /\
    Forall (fun c => exists n, c = Int n /\ 0 <= n <= 9) labels.
Proof.
  apply (cleaner_label_cells_are_digits sample_merged sample_cleaned
           (Int 1, [Int 8; Str "water"; Int 1; Int 1; Int 0])).
  - repeat constructor.
  - vm_compute. reflexivity.
  - simpl. tauto.
Defined.

(** X6. The rows that the Cleaner returns are exactly the cleaned rows of
    the input whose [related] value is not 2: every returned row is the
    cleaned form of an input row, with the labels decoded from that row's own
    [categories] string, and every input row whose cleaned form has a
    [related] value other than 2 is among the returned rows (once, however
    often it occurs). *)
Theorem cleaner_returns_the_cleaned_rows (df out : DataFrame) :
  wf_frame df ->
  clean_data df = OK out ->
  exists p names q,
    positions "categories" (columns df) = [p] /\
    category_colnames df = OK names /\
    positions "related" (columns out) = [q] /\
    forall cells,
      In cells (map snd (rows out)) <->
      exists r s vals,
        In r (rows df) /\
        nth p (snd r) Null = Str s /\
        Forall2 decoded_token (PyStr.split semicolon s) vals /\
        cells = cleaned_cells df names r vals /\
        nth q cells Null <> Int 2.
Proof.
  intros Hwf H.
  destruct (clean_data_structure df out H) as (cats & q & Hdec & Hq & _ & Hrows).
  apply decode_categories_spec in Hdec as (p & Hp & Hnames & _ & Hzip).
  assert (Hlen : forall r, In r (rows df) -> length (snd r) = length (columns df)).
  { unfold wf_frame in Hwf. rewrite Forall_forall in Hwf.
    intros r Hr. apply Hwf, list_elem_of_In, Hr. }
  exists p, (columns cats), q. split; [exact Hp|]. split; [exact Hnames|].
  split; [exact Hq|]. intros cells. rewrite Hrows. split.
  - intros Hin. apply in_map_iff in Hin as (r' & <- & Hr').
    apply drop_dups_In in Hr' as [Hr' _]. apply filter_In in Hr' as [Hr' Hne].
    apply in_map_iff in Hr' as (x & <- & Hx). simpl in *.
    destruct (zip_rows_In _ _ _ _ Hzip Hx) as (ra & rb & Hra & Hab & ->).
    destruct Hab as (_ & _ & s & Hs & Hvals). simpl in *.
    rewrite (cleaned_cells_zip df (columns cats) ra (snd rb) (Hlen ra Hra)) in *.
    exists ra, s, (snd rb). repeat split; try assumption.
    intros E. rewrite E in Hne. discriminate.
  - intros (r & s & vals & Hr & Hs & Hvals & -> & Hne).
    destruct (zip_rows_In_left _ _ _ _ Hzip Hr) as (rb & (_ & _ & s' & Hs' & Hvals') & Hx).
    rewrite Hs in Hs'. injection Hs' as <-.
    rewrite (decoded_tokens_functional _ _ _ Hvals Hvals') in *.
    set (f := fun x : cell * list cell =>
                (fst x, keep_mask (map kept (columns df ++ columns cats)) (snd x))).
    assert (Hy : In (fst r, cleaned_cells df (columns cats) r (snd rb))
                    (List.filter (fun r => negb (cell_eqb (nth q (snd r) Null) (Int 2)))
                       (map f (zip_rows (rows df) (rows cats))))).
    { apply filter_In. split.
      - apply in_map_iff. exists (fst r, snd r ++ snd rb). split; [|exact Hx].
        unfold f. simpl. rewrite (cleaned_cells_zip _ _ _ _ (Hlen r Hr)). reflexivity.
      - simpl. apply negb_true_iff.
        destruct (cell_eqb _ (Int 2)) eqn:E; [|reflexivity].
        apply cell_eqb_eq in E. contradiction. }
    destruct (drop_dups_complete [] _ _ Hy) as [[]|Hin]. exact Hin.
Qed.

Lemma cleaner_returns_the_cleaned_rows_witness :
  exists p names q,
    positions "categories" (columns sample_merged) = [p] /\
    category_colnames sample_merged = OK names /\
    positions "related" (columns sample_cleaned) = [q] /\
    forall cells,
      In cells (map snd (rows sample_cleaned)) <->
      exists r s vals,
        In r (rows sample_merged) /\
        nth p (snd r) Null = Str s /\
        Forall2 decoded_token (PyStr.split semicolon s) vals /\
        cells = cleaned_cells sample_merged names r vals /\
        nth q cells Null <> Int 2.
Proof.
  apply (cleaner_returns_the_cleaned_rows sample_merged sample_cleaned).
  - repeat constructor.
  - vm_compute. reflexivity.
Defined.

(** X7. The Cleaner never adds or reorders rows: the index labels of what it
    returns are a subsequence of the index labels of the merged record set,
    so it returns at most as many rows as it was given. *)
Theorem cleaner_keeps_row_order (df out : DataFrame) :
  clean_data df = OK out ->
  sublist (map fst (rows out)) (map fst (rows df)) /\
  (length (rows out) <= length (rows df))%nat.
Proof.
  intros H.
  destruct (clean_data_structure df out H) as (cats & q & Hdec & _ & _ & Hrows).
  apply decode_categories_spec in Hdec as (p & _ & _ & _ & Hzip).
  assert (Hsub : sublist (map fst (rows out)) (map fst (rows df))).
  { rewrite Hrows, <- (zip_rows_fst _ _ _ Hzip).
    etransitivity; [apply map_sublist, drop_dups_sublist|].
    etransitivity; [apply map_sublist, filter_sublist|].
    rewrite map_map. simpl. reflexivity. }
  split; [exact Hsub|].
  apply sublist_length in Hsub. rewrite !length_map in Hsub. exact Hsub.
Qed.

Lemma cleaner_keeps_row_order_witness :
  sublist (map fst (rows sample_cleaned)) (map fst (rows sample_merged)) /\
  (length (rows sample_cleaned) <= length (rows sample_merged))%nat.
Proof.
  apply (cleaner_keeps_row_order sample_merged sample_cleaned).
  vm_compute. reflexivity.
Defined.

(** X8. The Cleaner cannot be applied to its own result: what it returns has
    no [categories] column any more, so a second application raises
    [KeyError]. *)
Theorem cleaner_cannot_run_twice (df out : DataFrame) :
  clean_data df = OK out -> clean_data out = Raise KeyError.
Proof.
  intros H.
  destruct (clean_data_structure df out H) as (cats & q & _ & _ & Hcols & _).
  assert (Hnone : positions "categories" (columns out) = []).
  { apply positions_nil. rewrite Hcols. intros Hin.
    apply filter_In in Hin as [_ Hk]. discriminate. }
  unfold clean_data, decode_categories, split_categories, getitem.
  rewrite Hnone. reflexivity.
Qed.

Lemma cleaner_cannot_run_twice_witness :
  clean_data sample_cleaned = Raise KeyError.
Proof.
  apply (cleaner_cannot_run_twice sample_merged sample_cleaned).
  vm_compute. reflexivity.
Defined.

(* ===================================================================== *)
(** * More about the Loader                                               *)
(* ===================================================================== *)

Module MergeMore.
Import Pandas PandasFacts Merge MergeFacts.

Lemma flat_map_map {A B C : Type} (g : A -> B) (f : B -> list C) (l : list A) :
  flat_map f (map g l) = flat_map (fun x => f (g x)) l.
Proof. induction l; simpl; congruence. Qed.

(** Where the columns and the cells of a frame merged on exact keys come
    from: an optional
    key column in front, then the columns of the left frame, then those of
    the right frame without its key; and every row is a joined row laid out
    that way. *)
Lemma merge_left_layout (name : string) (left right out : DataFrame) :
  (forall c, c +:+ "_x" <> name) ->
  (forall c, c +:+ "_y" <> name) ->
  wf_frame left ->
  Forall (fun c => Dtype.exact c = true) (ids name left) ->
  Forall (fun c => Dtype.exact c = true) (ids name right) ->
  merge_left name left right = OK out ->
  exists kl kr ko pre,
    resolve_key name left = OK kl /\
    resolve_key name right = OK kr /\
    resolve_key name out = OK ko /\
    (pre = [] \/ (pre = [name] /\ kl = KeyIndex)) /\
    columns out = pre ++ with_suffix "_x" (without_key kr (columns right)) (columns left)
                      ++ with_suffix "_y" (columns left) (without_key kr (columns right)) /\
    forall r, In r (rows out) ->
      exists j, In j (join_rows false kl kr (length (without_key kr (columns right)))
                        (rows left) (rows right)) /\
                key_of ko r = fst j /\
                snd r = map (fun _ => fst j) pre ++ snd j.
Proof.
  intros Hx Hy Hwf Hleft Hright Hmerge.
  destruct (merge_left_spec name left right out Hx Hy Hwf Hleft Hright Hmerge)
    as (kl & kr & ko & Hkl & Hkr & Hko & _ & _).
  unfold merge_left in Hmerge. rewrite Hkl, Hkr in Hmerge. simpl in Hmerge.
  destruct (mergeable _ _); simpl in Hmerge; [|discriminate].
  unfold ids, id_of in Hleft, Hright. rewrite Hkl in Hleft. rewrite Hkr in Hright.
  rewrite (join_rows_exact _ _ _ _ _ _ Hleft Hright) in Hmerge.
  set (joined := join_rows false kl kr (length (without_key kr (columns right)))
                   (rows left) (rows right)) in *.
  destruct kl as [pl|].
  - assert (Hout : out = {| index_name := None;
                            columns := with_suffix "_x" (without_key kr (columns right))
                                         (columns left)
                                       ++ with_suffix "_y" (columns left)
                                            (without_key kr (columns right));
                            rows := range_index 0 (map snd joined) |}).
    { destruct kr; injection Hmerge as <-; reflexivity. }
    clear Hmerge. subst out.
    assert (Hko' : ko = KeyColumn pl).
    { apply resolve_key_column in Hkl as [Hpl _].
      unfold resolve_key in Hko. simpl in Hko.
      assert (Hpos : positions name
                (with_suffix "_x" (without_key kr (columns right)) (columns left)
                 ++ with_suffix "_y" (columns left) (without_key kr (columns right)))
                = [pl]).
      { unfold positions. rewrite positions_from_app.
        rewrite (with_suffix_positions _ _ _ _ _ (without_key_no_name _ _ _ Hkr) Hx).
        rewrite (positions_from_nil _ name
                   (with_suffix "_y" (columns left) (without_key kr (columns right)))).
        - rewrite app_nil_r. exact Hpl.
        - apply with_suffix_no_name; [|exact Hy]. exact (without_key_no_name _ _ _ Hkr). }
      rewrite Hpos in Hko. unfold is_level in Hko. simpl in Hko. congruence. }
    subst ko.
    exists (KeyColumn pl), kr, (KeyColumn pl), [].
    split; [exact Hkl|]. split; [exact Hkr|]. split; [exact Hko|].
    split; [left; reflexivity|]. split; [reflexivity|].
    intros r Hin. simpl in Hin.
    apply range_index_In, in_map_iff in Hin as (j & E & Hj).
    exists j. split; [exact Hj|]. split; [|simpl; congruence].
    simpl. rewrite <- E.
    apply join_rows_In in Hj as (l & Hl & Hfst & Hsnd).
    apply resolve_key_column in Hkl as [Hpl _].
    assert (Hlt : (pl < length (snd l))%nat).
    { unfold wf_frame in Hwf. rewrite Forall_forall in Hwf.
      rewrite (Hwf l) by (apply list_elem_of_In; exact Hl).
      apply nth_error_Some.
      rewrite (positions_nth name (columns left) pl); [discriminate|].
      rewrite Hpl. left. reflexivity. }
    rewrite Hfst. simpl.
    destruct Hsnd as [[_ ->]|(r' & _ & _ & ->)]; apply app_nth1; exact Hlt.
  - destruct kr as [pr|]; injection Hmerge as <-.
    + assert (Hko' : ko = KeyColumn 0).
      { assert (Hres : resolve_key name
                  {| index_name := None;
                     columns := name :: with_suffix "_x" (without_key (KeyColumn pr)
                                                            (columns right)) (columns left)
                                ++ with_suffix "_y" (columns left)
                                     (without_key (KeyColumn pr) (columns right));
                     rows := range_index 0 (map (fun r => fst r :: snd r) joined) |}
                  = OK (KeyColumn 0)).
        { apply resolve_key_column. simpl. split; [|reflexivity].
          unfold positions. simpl. rewrite String.eqb_refl. f_equal.
          apply positions_from_nil. intros Hin. apply in_app_or in Hin as [Hin|Hin].
          - revert Hin. apply with_suffix_no_name; [|exact Hx].
            apply positions_nil. apply resolve_key_index in Hkl. tauto.
          - revert Hin. apply with_suffix_no_name; [|exact Hy].
            exact (without_key_no_name _ _ _ Hkr). }
        assert (E : OK ko = OK (KeyColumn 0))
          by (etransitivity; [symmetry; exact Hko|exact Hres]).
        congruence. }
      subst ko.
      exists KeyIndex, (KeyColumn pr), (KeyColumn 0), [name].
      split; [exact Hkl|]. split; [exact Hkr|]. split; [exact Hko|].
      split; [right; auto|]. split; [reflexivity|].
      intros r Hin. simpl in Hin.
      apply range_index_In, in_map_iff in Hin as (j & E & Hj).
      exists j. split; [exact Hj|]. simpl. rewrite <- E. auto.
    + assert (Hko' : ko = KeyIndex).
      { assert (Hres : resolve_key name
                  {| index_name := Some name;
                     columns := with_suffix "_x" (without_key KeyIndex (columns right))
                                  (columns left)
                                ++ with_suffix "_y" (columns left)
                                     (without_key KeyIndex (columns right));
                     rows := joined |}
                  = OK KeyIndex).
        { apply resolve_key_index. simpl. split.
          - apply positions_nil. intros Hin. apply in_app_or in Hin as [Hin|Hin].
            + revert Hin. apply with_suffix_no_name; [|exact Hx].
              apply positions_nil. apply resolve_key_index in Hkl. tauto.
            + revert Hin. apply with_suffix_no_name; [|exact Hy].
              exact (without_key_no_name _ _ _ Hkr).
          - unfold is_level. simpl. apply String.eqb_refl. }
        assert (E : OK ko = OK KeyIndex)
          by (etransitivity; [symmetry; exact Hko|exact Hres]).
        congruence. }
      subst ko.
      exists KeyIndex, KeyIndex, KeyIndex, [].
      split; [exact Hkl|]. split; [exact Hkr|]. split; [exact Hko|].
      split; [left; reflexivity|]. split; [reflexivity|].
      intros r Hin. exists r. simpl in Hin. auto.
Qed.

End MergeMore.

Import MergeMore.

(** X9. When every id of the two inputs is text, missing, or an integer of
    magnitude at most 2^53, the Loader keeps the order of the Messages
    input: the ids of the rows it returns are the ids of the Messages rows
    in their order, each repeated once per Category record with that id
    (once when there is none). *)
Theorem loader_keeps_message_order (mp cp : string) (w w' : World)
    (msgs cats out : DataFrame) :
  fst (read_csv mp w) = OK msgs ->
  fst (read_csv cp w) = OK cats ->
  load_data mp cp w = (OK out, w') ->
  Forall (fun c => Dtype.exact c = true) (ids "id" msgs) ->
  Forall (fun c => Dtype.exact c = true) (ids "id" cats) ->
  ids "id" out =
  flat_map (fun i => repeat i (Nat.max 1 (occurrences i (ids "id" cats))))
           (ids "id" msgs).
Proof.
  intros Hm Hc H Hexm Hexc.
  apply load_data_inv in H as (msgs' & cats' & Hm' & Hc' & Hmerge & _).
  rewrite Hm in Hm'. rewrite Hc in Hc'. injection Hm' as <-. injection Hc' as <-.
  destruct (merge_left_spec "id" msgs cats out suffix_x_not_id suffix_y_not_id
              (read_csv_wf _ _ _ Hm) Hexm Hexc Hmerge)
    as (kl & kr & ko & Hkl & Hkr & Hko & Hkeys & _).
  rewrite (ids_resolved _ _ _ Hko), (ids_resolved _ _ _ Hkl), (ids_resolved _ _ _ Hkr).
  rewrite Hkeys, join_rows_keys, flat_map_map. reflexivity.
Qed.

Lemma loader_keeps_message_order_witness :
  ids "id" sample_loaded =
  flat_map (fun i => repeat i (Nat.max 1 (occurrences i (ids "id" sample_categories))))
           (ids "id" sample_messages).
Proof.
  apply (loader_keeps_message_order "messages.csv" "categories.csv" sample_world
           (emit (FileRead "categories.csv") (emit (FileRead "messages.csv") sample_world))).
  - vm_compute. reflexivity.
  - vm_compute. reflexivity.
  - vm_compute. reflexivity.
  - repeat constructor.
  - repeat constructor.
Defined.

(** X10. When every id of the two inputs is text, missing, or an integer of
    magnitude at most 2^53, every row that the Loader returns is a row of
    the Messages input (after the id, when the merge puts it in front)
    followed either by the fields of a Category record with the same id, or
    by missing values when no Category record has that id: a message is
    never paired with the categories of another id. *)
Theorem loader_pairs_equal_ids (mp cp : string) (w w' : World)
    (msgs cats out : DataFrame) (r : cell * list cell) :
  fst (read_csv mp w) = OK msgs ->
  fst (read_csv cp w) = OK cats ->
  load_data mp cp w = (OK out, w') ->
  Forall (fun c => Dtype.exact c = true) (ids "id" msgs) ->
  Forall (fun c => Dtype.exact c = true) (ids "id" cats) ->
  In r (rows out) ->
  exists l front,
    In l (rows msgs) /\
    id_of "id" msgs l = id_of "id" out r /\
    (front = [] \/ front = [id_of "id" out r]) /\
    ((occurrences (id_of "id" out r) (ids "id" cats) = 0%nat /\
      snd r = front ++ snd l ++ repeat Null (right_width "id" cats)) \/
     (exists c, In c (rows cats) /\
                id_of "id" cats c = id_of "id" out r /\
                snd r = front ++ snd l ++ fields_of "id" cats c)).
Proof.
  intros Hm Hc H Hexm Hexc Hr.
  apply load_data_inv in H as (msgs' & cats' & Hm' & Hc' & Hmerge & _).
  rewrite Hm in Hm'. rewrite Hc in Hc'. injection Hm' as <-. injection Hc' as <-.
  destruct (merge_left_layout "id" msgs cats out suffix_x_not_id suffix_y_not_id
              (read_csv_wf _ _ _ Hm) Hexm Hexc Hmerge)
    as (kl & kr & ko & pre & Hkl & Hkr & Hko & Hpre & _ & Hrows).
  destruct (Hrows r Hr) as (j & Hj & Hkey & Hcells).
  apply join_rows_In in Hj as (l & Hl & Hfst & Hsnd).
  exists l, (map (fun _ => fst j) pre).
  unfold id_of, right_width, fields_of. rewrite Hkl, Hko, Hkr, Hkey.
  rewrite (ids_resolved _ _ _ Hkr).
  split; [exact Hl|].
  split; [congruence|]. split.
  - destruct Hpre as [->|[-> _]]; simpl; auto.
  - destruct Hsnd as [[Hnone E]|(c & Hc' & Hck & E)]; rewrite Hcells, E.
    + left. auto.
    + right. exists c. auto.
Qed.

Lemma loader_pairs_equal_ids_witness :
  exists l front,
    In l (rows sample_messages) /\
    id_of "id" sample_messages l
    = id_of "id" sample_loaded (Int 9, [Str "noise"; Str "news"; Null]) /\
    (front = [] \/
     front = [id_of "id" sample_loaded (Int 9, [Str "noise"; Str "news"; Null])]) /\
    ((occurrences (id_of "id" sample_loaded (Int 9, [Str "noise"; Str "news"; Null]))
        (ids "id" sample_categories) = 0%nat /\
      [Str "noise"; Str "news"; Null]
      = front ++ snd l ++ repeat Null (right_width "id" sample_categories)) \/
     (exists c, In c (rows sample_categories) /\
                id_of "id" sample_categories c
                = id_of "id" sample_loaded (Int 9, [Str "noise"; Str "news"; Null]) /\
                [Str "noise"; Str "news"; Null]
                = front ++ snd l ++ fields_of "id" sample_categories c)).
Proof.
  apply (loader_pairs_equal_ids "messages.csv" "categories.csv" sample_world
           (emit (FileRead "categories.csv") (emit (FileRead "messages.csv") sample_world))
           sample_messages sample_categories
           sample_loaded (Int 9, [Str "noise"; Str "news"; Null])).
  - vm_compute. reflexivity.
  - vm_compute. reflexivity.
  - vm_compute. reflexivity.
  - repeat constructor.
  - repeat constructor.
  - simpl. tauto.
Defined.

(** X11. When both files parse but the Messages input has no [id], neither as
    its index nor among its columns, the Loader raises [KeyError] in the
    merge, after having read both files (line 27). *)
Theorem loader_needs_the_id_key (mp cp : string) (w : World) (msgs cats : DataFrame) :
  fst (read_csv mp w) = OK msgs ->
  fst (read_csv cp w) = OK cats ->
  ~ In "id" (columns msgs) ->
  index_name msgs <> Some "id" ->
  load_data mp cp w = (Raise KeyError, emit (FileRead cp) (emit (FileRead mp) w)).
Proof.
  intros Hm Hc Hcol Hidx. rewrite load_data_eq, Hm, Hc. f_equal.
  unfold merge_left, resolve_key. apply positions_nil in Hcol. rewrite Hcol.
  unfold is_level. destruct (index_name msgs) as [n|]; [|reflexivity].
  destruct (String.eqb n "id") eqn:E; [|reflexivity].
  apply String.eqb_eq in E. congruence.
Qed.

Lemma loader_needs_the_id_key_witness :
  load_data "messages.csv" "categories.csv" keyless_world
  = (Raise KeyError,
     emit (FileRead "categories.csv") (emit (FileRead "messages.csv") keyless_world)).
Proof.
  apply (loader_needs_the_id_key "messages.csv" "categories.csv" keyless_world
           {| index_name := Some "n"; columns := ["message"];
              rows := [ (Int 7, [Str "help"]) ] |}
           {| index_name := Some "id"; columns := ["categories"];
              rows := [ (Int 7, [Str "related-1;offer-0;child_alone-0"]);
                        (Int 8, [Str "related-1;offer-1;child_alone-0"]);
                        (Int 8, [Str "related-1;offer-1;child_alone-0"]) ] |}).
  - vm_compute. reflexivity.
  - vm_compute. reflexivity.
  - simpl. intros [E|[]]. discriminate.
  - discriminate.
Defined.

(* ===================================================================== *)
(** * More about the Persister and the whole run                          *)
(* ===================================================================== *)

Module RunMore.
Import Pandas PandasFacts DecodeFacts CleanFacts Merge MergeFacts IOFacts MergeMore CleanMore.

Lemma loading_text_not_saved (m c : string) : loading_text m c <> saved_text.
Proof. unfold loading_text, saved_text. intros H. inversion H. Qed.

Lemma saving_text_not_saved (d : string) : saving_text d <> saved_text.
Proof. unfold saving_text, saved_text. intros H. inversion H. Qed.

Lemma occurrences_pos_In (x : cell) (l : list cell) :
  (0 < occurrences x l)%nat -> In x l.
Proof.
  induction l as [|y l IH]; [unfold occurrences; simpl; lia|].
  rewrite occurrences_cons. destruct (cell_eqb x y) eqn:E.
  - apply cell_eqb_eq in E. subst. left. reflexivity.
  - intros H. right. apply IH. lia.
Qed.

Lemma positions_after (name : string) (a b : list string) (p : nat) :
  positions name (a ++ b) = [p] -> ~ In name a -> (length a <= p)%nat.
Proof.
  intros Hp Hnot.
  assert (Hnth : nth_error (a ++ b) p = Some name).
  { apply positions_nth. rewrite Hp. left. reflexivity. }
  destruct (Nat.lt_ge_cases p (length a)) as [Hlt|Hge]; [|exact Hge].
  rewrite nth_error_app1 in Hnth by exact Hlt.
  apply nth_error_In in Hnth. contradiction.
Qed.

Lemma nth_repeat_Null (k n : nat) : nth k (repeat Null n) Null = Null.
Proof.
  revert k. induction n as [|n IH]; intros [|k]; simpl; auto.
Qed.

Lemma suffix_x_not_categories (c : string) : c +:+ "_x" <> "categories".
Proof. intros H. repeat peel_suffix. Qed.

End RunMore.

Import RunMore.

(** X12. When the messages file does not exist, a run with three arguments
    raises [FileNotFoundError] in the Loader, having printed only the loading
    text and touched only that path; when the messages file parses and the
    categories file does not exist, it raises [FileNotFoundError] after
    reading the messages.  In both cases no file is changed. *)
Theorem main_missing_input_file (a0 m c d : string) (w : World) :
  (fs w !! m = None ->
   exists w', main [a0; m; c; d] w = (Raise FileNotFoundError, w') /\
              fs w' = fs w /\
              log w' = log w ++ [Stdout (loading_text m c); Invoke Loader; FileRead m]) /\
  (forall msgs, fst (read_csv m w) = OK msgs ->
   fs w !! c = None ->
   exists w', main [a0; m; c; d] w = (Raise FileNotFoundError, w') /\
              fs w' = fs w /\
              log w' = log w ++ [Stdout (loading_text m c); Invoke Loader;
                                 FileRead m; FileRead c]).
Proof.
  split.
  - intros Hm. rewrite main_run, load_data_eq.
    unfold read_csv at 1. simpl. rewrite Hm. simpl.
    eexists. split; [reflexivity|]. split; [reflexivity|].
    unfold at_loader, emit. simpl. rewrite <- !app_assoc. reflexivity.
  - intros msgs Hm Hc. rewrite main_run, load_data_eq.
    rewrite (read_csv_result m (at_loader m c w) w) by reflexivity. rewrite Hm.
    unfold read_csv at 1. simpl. rewrite Hc. simpl.
    eexists. split; [reflexivity|]. split; [reflexivity|].
    unfold at_loader, emit. simpl. rewrite <- !app_assoc. reflexivity.
Qed.

Lemma main_missing_input_file_witness :
  (exists w', main ["prog"; "messages.csv"; "categories.csv"; "out.db"] no_messages_world
              = (Raise FileNotFoundError, w') /\
              fs w' = fs no_messages_world /\
              log w' = log no_messages_world
                       ++ [Stdout (loading_text "messages.csv" "categories.csv");
                           Invoke Loader; FileRead "messages.csv"]) /\
  (exists w', main ["prog"; "messages.csv"; "categories.csv"; "out.db"] no_categories_world
              = (Raise FileNotFoundError, w') /\
              fs w' = fs no_categories_world /\
              log w' = log no_categories_world
                       ++ [Stdout (loading_text "messages.csv" "categories.csv");
                           Invoke Loader; FileRead "messages.csv";
                           FileRead "categories.csv"]).
Proof.
  split.
  - apply (proj1 (main_missing_input_file "prog" "messages.csv" "categories.csv" "out.db"
                    no_messages_world)).
    reflexivity.
  - apply (proj2 (main_missing_input_file "prog" "messages.csv" "categories.csv" "out.db"
                    no_categories_world)
             {| index_name := Some "id"; columns := ["message"; "genre"];
                rows := [ (Int 7, [Str "help"; Str "direct"]);
                          (Int 8, [Str "water"; Str "news"]);
                          (Int 9, [Str "noise"; Str "news"]) ] |}).
    + vm_compute. reflexivity.
    + reflexivity.
Defined.

(** X13. With an empty destination, or the destination [:memory:], the
    database URL designates a transient in-memory database: whatever
    [save_data] does, the world is afterwards as it was, nothing is stored. *)
Theorem persister_in_memory_stores_nothing (df : DataFrame) (p : string) (w w' : World)
    (r : result unit) :
  p = EmptyString \/ p = ":memory:" ->
  save_data df p w = (r, w') ->
  w' = w.
Proof.
  intros Hp. rewrite save_data_eq.
  assert (He : Sql.create_engine ("sqlite:///" +:+ p) = OK Sql.InMemory).
  { destruct Hp as [->| ->]; vm_compute; reflexivity. }
  rewrite He. unfold Sql.to_sql, Sql.commit. simpl.
  destruct (Sql.writable p df); simpl; [|congruence].
  destruct (Sql.create_table [] p df); intros H; congruence.
Qed.

Lemma persister_in_memory_stores_nothing_witness :
  snd (save_data sample_cleaned ":memory:" sample_world) = sample_world.
Proof.
  apply (persister_in_memory_stores_nothing sample_cleaned ":memory:" sample_world _
           (fst (save_data sample_cleaned ":memory:" sample_world))).
  - right. reflexivity.
  - apply surjective_pairing.
Defined.





(** X16. A run with three arguments always prints the loading text first, and
    it prints [Cleaned data saved to database!] exactly when it returns: the
    success message is never printed by a run that raised. *)
Theorem main_reports_success_only_when_saved (a0 m c d : string) (w w' : World)
    (r : result unit) :
  main [a0; m; c; d] w = (r, w') ->
  exists evs,
    log w' = log w ++ evs /\
    (exists rest, printed evs = loading_text m c :: rest) /\
    (In saved_text (printed evs) <-> r = OK tt).
Proof.
  intros H. rewrite main_run in H.
  pose proof (load_data_world m c (at_loader m c w)) as Hwl.
  destruct (load_data m c (at_loader m c w)) as [[df|e] wl]; simpl in Hwl.
  - assert (Hlog : exists reads, log wl = log w ++ [Stdout (loading_text m c);
                                                    Invoke Loader] ++ reads /\
                                 printed reads = []).
    { rewrite Hwl. destruct (fst (read_csv m (at_loader m c w))).
      - exists [FileRead m; FileRead c]. split; [|reflexivity].
        log_eq.
      - exists [FileRead m]. split; [|reflexivity].
        log_eq. }
    destruct Hlog as (reads & Hlog & Hreads).
    destruct (clean_data df) as [out|e].
    + destruct (save_data_log out d (at_persister d (at_cleaner wl)))
        as (evs & Hevs & _ & Hprinted).
      destruct (save_data out d (at_persister d (at_cleaner wl))) as [[[]|e] ws];
        injection H as <- <-; simpl in Hevs.
      * exists ([Stdout (loading_text m c); Invoke Loader] ++ reads
                ++ [Stdout "Cleaning data..."; Invoke Cleaner;
                    Stdout (saving_text d); Invoke Persister] ++ evs
                ++ [Stdout saved_text]).
        split; [|split].
        -- simpl. rewrite Hevs. simpl. rewrite Hlog. log_eq.
        -- eexists. unfold printed. simpl. reflexivity.
        -- split; [reflexivity|]. intros _.
           unfold printed in *. rewrite !flat_map_app, Hreads, Hprinted.
           simpl. auto.
      * exists ([Stdout (loading_text m c); Invoke Loader] ++ reads
                ++ [Stdout "Cleaning data..."; Invoke Cleaner;
                    Stdout (saving_text d); Invoke Persister] ++ evs).
        split; [|split].
        -- rewrite Hevs. simpl. rewrite Hlog. log_eq.
        -- eexists. unfold printed. simpl. reflexivity.
        -- split; [|discriminate]. intros Hin. exfalso.
           unfold printed in *. rewrite !flat_map_app, Hreads, Hprinted in Hin.
           simpl in Hin.
           destruct Hin as [E|[E|[E|[]]]].
           ++ exact (loading_text_not_saved _ _ E).
           ++ discriminate.
           ++ exact (saving_text_not_saved _ E).
    + injection H as <- <-.
      exists ([Stdout (loading_text m c); Invoke Loader] ++ reads
              ++ [Stdout "Cleaning data..."; Invoke Cleaner]).
      split; [|split].
      * simpl. rewrite Hlog. log_eq.
      * eexists. unfold printed. simpl. reflexivity.
      * split; [|discriminate]. intros Hin. exfalso.
        unfold printed in *. rewrite !flat_map_app, Hreads in Hin.
        simpl in Hin.
        destruct Hin as [E|[E|[]]].
        -- exact (loading_text_not_saved _ _ E).
        -- discriminate.
  - injection H as <- <-.
    assert (Hlog : exists reads, log wl = log w ++ [Stdout (loading_text m c);
                                                    Invoke Loader] ++ reads /\
                                 printed reads = []).
    { rewrite Hwl. destruct (fst (read_csv m (at_loader m c w))).
      - exists [FileRead m; FileRead c]. split; [|reflexivity].
        log_eq.
      - exists [FileRead m]. split; [|reflexivity].
        log_eq. }
    destruct Hlog as (reads & Hlog & Hreads).
    exists ([Stdout (loading_text m c); Invoke Loader] ++ reads).
    split; [exact Hlog|]. split.
    + eexists. unfold printed. simpl. reflexivity.
    + split; [|discriminate]. intros Hin. exfalso.
      unfold printed in *. rewrite !flat_map_app, Hreads in Hin. simpl in Hin.
      destruct Hin as [E|[]]. exact (loading_text_not_saved _ _ E).
Qed.

Lemma main_reports_success_only_when_saved_witness :
  exists evs,
    log (snd (main ["prog"; "messages.csv"; "categories.csv"; "out.db"] sample_world))
    = log sample_world ++ evs /\
    (exists rest, printed evs = loading_text "messages.csv" "categories.csv" :: rest) /\
    (In saved_text (printed evs) <->
     fst (main ["prog"; "messages.csv"; "categories.csv"; "out.db"] sample_world) = OK tt).
Proof.
  apply (main_reports_success_only_when_saved "prog" "messages.csv" "categories.csv"
           "out.db" sample_world).
  apply surjective_pairing.
Defined.

(** X17. When both files parse, every id of the two inputs is text, missing,
    or an integer of magnitude at most 2^53, [categories] is not a column of
    the Messages input, and some message has an id that no Category record
    carries, a run with three arguments raises before the Persister is
    invoked and leaves every file as it was: the merged row of that message
    has no categories string, which the Cleaner does not accept. *)
Theorem run_stops_on_unmatched_message (a0 m c d : string) (w : World)
    (msgs cats : DataFrame) (i : cell) :
  fst (read_csv m w) = OK msgs ->
  fst (read_csv c w) = OK cats ->
  Forall (fun k => Dtype.exact k = true) (ids "id" msgs) ->
  Forall (fun k => Dtype.exact k = true) (ids "id" cats) ->
  ~ In "categories" (columns msgs) ->
  In i (ids "id" msgs) ->
  occurrences i (ids "id" cats) = 0%nat ->
  exists e w' evs,
    main [a0; m; c; d] w = (Raise e, w') /\
    fs w' = fs w /\
    log w' = log w ++ evs /\
    ~ In Persister (stages evs).
Proof.
  intros Hm Hc Hexm Hexc Hnocat Hi Hnone.
  rewrite main_run, load_data_eq.
  rewrite (read_csv_result m (at_loader m c w) w) by reflexivity.
  rewrite (read_csv_result c (at_loader m c w) w) by reflexivity.
  rewrite Hm, Hc.
  destruct (merge_left "id" msgs cats) as [df|e] eqn:Hmerge.
  2:{ exists e. eexists.
      exists [Stdout (loading_text m c); Invoke Loader; FileRead m; FileRead c].
      split; [reflexivity|]. split; [reflexivity|]. split; [log_eq|].
      simpl. intros [E|[]]. discriminate. }
  destruct (clean_data df) as [out|e] eqn:Hclean.
  2:{ exists e. eexists.
      exists [Stdout (loading_text m c); Invoke Loader; FileRead m; FileRead c;
              Stdout "Cleaning data..."; Invoke Cleaner].
      split; [reflexivity|]. split; [reflexivity|]. split; [log_eq|].
      simpl. intros [E|[E|[]]]; discriminate. }
  exfalso.
  pose proof (read_csv_wf _ _ _ Hm) as Hwf.
  destruct (merge_left_layout "id" msgs cats df suffix_x_not_id suffix_y_not_id Hwf
              Hexm Hexc Hmerge)
    as (kl & kr & ko & pre & Hkl & Hkr & Hko & Hpre & Hcols & Hrows).
  destruct (merge_left_spec "id" msgs cats df suffix_x_not_id suffix_y_not_id Hwf
              Hexm Hexc Hmerge)
    as (kl' & kr' & ko' & Hkl' & Hkr' & Hko' & Hkeys & _).
  rewrite Hkl in Hkl'. rewrite Hkr in Hkr'. rewrite Hko in Hko'.
  injection Hkl' as <-. injection Hkr' as <-. injection Hko' as <-.
  (* a merged row that carries the id [i] *)
  assert (Hrow : exists r, In r (rows df) /\ key_of ko r = i).
  { assert (Hpos : (0 < occurrences i (map (key_of ko) (rows df)))%nat).
    { rewrite Hkeys, join_rows_count.
      rewrite (ids_resolved _ _ _ Hkr) in Hnone. rewrite Hnone.
      rewrite (ids_resolved _ _ _ Hkl) in Hi. apply occurrences_In in Hi. simpl. lia. }
    apply occurrences_pos_In, in_map_iff in Hpos as (r & E & Hr). eauto. }
  destruct Hrow as (r & Hr & Hkey).
  destruct (Hrows r Hr) as (j & Hj & Hkj & Hcells).
  apply join_rows_In in Hj as (l & Hl & _ & Hsnd).
  destruct Hsnd as [[_ Hnull]|(r' & Hr' & Hk' & _)].
  2:{ assert (Hpos : (0 < occurrences i (ids "id" cats))%nat).
      { rewrite (ids_resolved _ _ _ Hkr). apply occurrences_In.
        rewrite <- Hkey, Hkj, <- Hk'. apply in_map. exact Hr'. }
      lia. }
  (* its categories cell is missing, which the Cleaner refuses *)
  apply clean_data_inv in Hclean as (cs & _ & _ & _ & Hdec & _).
  apply decode_categories_spec in Hdec as (p & Hp & _ & _ & Hall).
  apply list_elem_of_In, list_elem_of_lookup in Hr as (n & Hn).
  destruct (Forall2_lookup_l _ _ _ _ _ Hall Hn) as (r2 & _ & _ & _ & s & Hs & _).
  assert (Hge : (length (map (fun _ : string => fst j) pre ++ snd l) <= p)%nat).
  { rewrite length_app, length_map.
    unfold wf_frame in Hwf. rewrite Forall_forall in Hwf.
    rewrite (Hwf l) by (apply list_elem_of_In; exact Hl).
    rewrite Hcols, app_assoc in Hp.
    apply positions_after in Hp.
    - rewrite length_app in Hp. unfold with_suffix in Hp. rewrite length_map in Hp.
      exact Hp.
    - intros Hin. apply in_app_or in Hin as [Hin|Hin].
      + destruct Hpre as [->|[-> _]]; simpl in Hin; [tauto|].
        destruct Hin as [E|[]]. discriminate.
      + revert Hin. apply with_suffix_no_name; [exact Hnocat|].
        exact suffix_x_not_categories. }
  rewrite Hcells, Hnull, app_assoc in Hs.
  rewrite app_nth2 in Hs by exact Hge.
  rewrite nth_repeat_Null in Hs. discriminate.
Qed.

Lemma run_stops_on_unmatched_message_witness :
  exists e w' evs,
    main ["prog"; "messages.csv"; "categories.csv"; "out.db"] sample_world = (Raise e, w') /\
    fs w' = fs sample_world /\
    log w' = log sample_world ++ evs /\
    ~ In Persister (stages evs).
Proof.
  apply (run_stops_on_unmatched_message "prog" "messages.csv" "categories.csv" "out.db"
           sample_world sample_messages sample_categories (Int 9)).
  - vm_compute. reflexivity.
  - vm_compute. reflexivity.
  - repeat constructor.
  - repeat constructor.
  - simpl. intros [E|[E|[]]]; discriminate.
  - vm_compute. tauto.
  - vm_compute. reflexivity.
Defined.
